(** * Teacher forcing log-odds: a model of [shap/models/_teacher_forcing.py]

    The class [TeacherForcing] scores how likely a text generation model is
    to produce a fixed target sentence: the target ids are fed to the model
    as decoding context, the logits aligned with the target tokens are cut
    out and turned into log odds.

    The development follows the Python module method by method.  Arrays are
    lists (a matrix is a list of rows, the logits a list of matrices),
    integers are [Z], Python slices and numpy indexing are written out with
    their clamping and wrap-around.  A method is a computation over the
    mutable part of the object; an exception leaves the state as it was at
    the raise, as in Python.  The tokenizer, the wrapped models and the
    float64 primitives are fields of a record: nothing is assumed about
    them except where a theorem says so.  The start token is an integer
    throughout: the float64 column [np.ones(...) * start] is cast back to
    integers before the forward pass. *)

From Stdlib Require Import String ZArith Bool Arith Lia List.
Import ListNotations.
Local Open Scope string_scope.
Local Open Scope list_scope.
Local Open Scope Z_scope.

Set Implicit Arguments.

(** ** Python values and exceptions *)

Inductive exn : Type :=
| ValueError (msg : string)
| IndexError (msg : string)
| RuntimeError (msg : string)
| UnboundLocalError (name : string)
| AttributeError (msg : string)
| InvalidArgumentError (msg : string)
| OtherError (msg : string).

Inductive result (A : Type) : Type :=
| Ok (a : A)
| Raise (e : exn).
Arguments Ok {A} a.
Arguments Raise {A} e.

Definition is_ok {A} (r : result A) : bool :=
  match r with Ok _ => true | Raise _ => false end.

Definition value_or {A} (default : A) (r : result A) : A :=
  match r with Ok a => a | Raise _ => default end.

(** What [print(err)] writes for an exception. *)
Definition exn_str (e : exn) : string :=
  match e with
  | ValueError m | IndexError m | RuntimeError m | AttributeError m
  | InvalidArgumentError m | OtherError m => m
  | UnboundLocalError n =>
      String.append "local variable '"
        (String.append n "' referenced before assignment")
  end.

(** ** Slices and numpy helpers *)

Module Py.

(** Normalisation of one bound of [a[i:j]] for a sequence of length [n]:
    a negative bound counts from the end, and both are clamped. *)
Definition clamp (n i : Z) : Z :=
  if i <? 0 then Z.max 0 (i + n) else Z.min i n.

(** [a[lo:hi]]; [None] is an omitted bound. *)
Definition slice {A} (lo hi : option Z) (l : list A) : list A :=
  let n := Z.of_nat (length l) in
  let a := match lo with None => 0 | Some i => clamp n i end in
  let b := match hi with None => n | Some j => clamp n j end in
  firstn (Z.to_nat (b - a)) (skipn (Z.to_nat a) l).

(** [a[i]] for an integer index, with numpy's wrap-around of a negative
    index; [None] is the IndexError. *)
Definition index {A} (l : list A) (i : Z) : option A :=
  let n := Z.of_nat (length l) in
  let j := if i <? 0 then i + n else i in
  if (0 <=? j) && (j <? n) then nth_error l (Z.to_nat j) else None.

(** [range(n)] *)
Definition range (n : nat) : list Z := map Z.of_nat (seq 0 n).

End Py.

Module Np.

(** [m.shape[1]] of a matrix held as a list of rows.  A matrix with no
    row has lost its column count; 0 stands for it. *)
Definition shape1 {A} (m : list (list A)) : Z :=
  Z.of_nat (length (hd [] m)).

(** [cumsum(-1)] of one row. *)
Fixpoint cumsum_from (acc : Z) (l : list Z) : list Z :=
  match l with
  | [] => []
  | x :: t => (acc + x) :: cumsum_from (acc + x) t
  end.
Definition cumsum (l : list Z) : list Z := cumsum_from 0 l.

(** [ones(m.shape)] *)
Definition ones_like (m : list (list Z)) : list (list Z) :=
  map (map (fun _ => 1)) m.

(** Concatenation of two matrices along the last axis; the row counts
    must agree. *)
Fixpoint cat_last (a b : list (list Z)) : option (list (list Z)) :=
  match a, b with
  | [], [] => Some []
  | ra :: ta, rb :: tb =>
      match cat_last ta tb with
      | Some t => Some ((ra ++ rb) :: t)
      | None => None
      end
  | _, _ => None
  end.

(** [np.concatenate((a, b))] of two matrices along the first axis; the
    column counts must agree. *)
Definition concatenate {A} (a b : list (list A)) : option (list (list A)) :=
  if (shape1 a =? shape1 b) then Some (a ++ b) else None.

(** Broadcasting of the two index arrays of [a[:, r, c]]. *)
Definition broadcast (r c : list Z) : option (list (Z * Z)) :=
  if Nat.eqb (length r) (length c) then Some (combine r c)
  else if Nat.eqb (length r) 1 then Some (map (pair (hd 0 r)) c)
  else if Nat.eqb (length c) 1 then Some (map (fun i => (i, hd 0 c)) r)
  else None.

(** [m[i, j]] for one matrix and one pair of the broadcast indices. *)
Definition at2 {A} (m : list (list A)) (ij : Z * Z) : option A :=
  match Py.index m (fst ij) with
  | Some row => Py.index row (snd ij)
  | None => None
  end.

(** All the values or none: the index arrays are checked as a whole. *)
Fixpoint all_some {A} (l : list (option A)) : option (list A) :=
  match l with
  | [] => Some []
  | Some x :: t =>
      match all_some t with Some t' => Some (x :: t') | None => None end
  | None :: _ => None
  end.

(** [a[:, r, c]] with [r] and [c] index arrays. *)
Definition take_pairs {A} (a : list (list (list A))) (r c : list Z)
  : option (list (list A)) :=
  match broadcast r c with
  | None => None
  | Some ij => all_some (map (fun m => all_some (map (at2 m) ij)) a)
  end.

End Np.

(** ** The data of the module *)

(** A target array [Y]: a batch of sentences ([dtype] [np.str_]) or a
    matrix of already parsed target ids, one row per explanation row.  A
    matrix is the list of its rows, so one with no row carries no column
    count. *)
Inductive ndarray : Type :=
| StrArr (sentences : list string)
| IdArr (ids : list (list Z)).

Definition len (Y : ndarray) : Z :=
  match Y with
  | StrArr l => Z.of_nat (length l)
  | IdArr m => Z.of_nat (length m)
  end.

(** [Y[lo:hi]] *)
Definition rows (lo hi : option Z) (Y : ndarray) : ndarray :=
  match Y with
  | StrArr l => StrArr (Py.slice lo hi l)
  | IdArr m => IdArr (Py.slice lo hi m)
  end.

Fixpoint list_eqb {A} (eqb : A -> A -> bool) (a b : list A) : bool :=
  match a, b with
  | [], [] => true
  | x :: a', y :: b' => eqb x y && list_eqb eqb a' b'
  | _, _ => false
  end.

(** [np.array_equal]: same shape and the same elements. *)
Definition array_equal (a b : ndarray) : bool :=
  match a, b with
  | StrArr x, StrArr y => list_eqb String.eqb x y
  | IdArr x, IdArr y => list_eqb (list_eqb Z.eqb) x y
  | _, _ => false
  end.

(** What the tokenizer returns: padded ids and their attention mask;
    [model_inference] adds the position ids for a decoder-only model. *)
Record BatchEncoding : Type := {
  input_ids : list (list Z);
  attention_mask : list (list Z);
  position_ids : option (list (list Z))
}.

(** The keyword arguments of one forward pass of the similarity model. *)
Record ModelCall : Type := {
  call_inputs : BatchEncoding;
  decoder_input_ids : option (list (list Z));
  labels : option (list (list Z))
}.

(** An attribute of a configuration object: absent ([hasattr] is false),
    present and [None], or present with a value. *)
Inductive attr (A : Type) : Type :=
| Missing
| IsNone
| Val (a : A).
Arguments Missing {A}.
Arguments IsNone {A}.
Arguments Val {A} a.

Record DecoderConfig : Type := {
  decoder_bos_token_id : attr Z
}.

Record Config : Type := {
  is_encoder_decoder : bool;
  is_decoder : attr bool;
  decoder_start_token_id : attr Z;
  bos_token_id : attr Z;
  decoder : attr DecoderConfig
}.

Inductive backend : Type := pt | tf.

(** The float64 primitives the module calls: [np.exp], the reduction
    [.sum(-1)], the elementwise division and subtraction, 1.0 and the
    logarithm.  They stay abstract: the theorems hold for every
    implementation of them. *)
Class Float64 (F : Type) : Type := {
  np_exp : F -> F;
  np_sum : list F -> F;
  fdiv : F -> F -> F;
  fsub : F -> F -> F;
  fone : F;
  np_log : F -> F
}.

(** The mutable state a call can change: the cached target and its token
    names, the padding side of the shared tokenizer and what was printed.
    Two ghost fields, absent from the source, record what the collaborators
    were asked: [names_computed] counts the entries into
    [get_output_names], [forward_calls] lists the arguments of the forward
    passes of the similarity model, oldest first. *)
Record state : Type := {
  self_output : option ndarray;
  self_output_names : option (list string);
  tokenizer_padding_side : string;
  stdout : list string;
  names_computed : nat;
  forward_calls : list ModelCall
}.

(** ** Computations: state and exceptions *)

Definition M (A : Type) : Type := state -> result A * state.

Definition ret {A} (a : A) : M A := fun s => (Ok a, s).

Definition raise {A} (e : exn) : M A := fun s => (Raise e, s).

Definition bind {A B} (c : M A) (k : A -> M B) : M B :=
  fun s =>
    match c s with
    | (Ok a, s') => k a s'
    | (Raise e, s') => (Raise e, s')
    end.

Definition lift {A} (r : result A) : M A := fun s => (r, s).

Definition gets {A} (f : state -> A) : M A := fun s => (Ok (f s), s).

Definition modify (f : state -> state) : M unit := fun s => (Ok tt, f s).

(** [try: body except RuntimeError as err: handler(err)] *)
Definition try_except_RuntimeError {A} (body : M A) (handler : exn -> M A)
  : M A :=
  fun s =>
    match body s with
    | (Raise (RuntimeError m), s') => handler (RuntimeError m) s'
    | r => r
    end.

Declare Scope py_scope.
Delimit Scope py_scope with py.
Notation "x <- c ;; k" := (bind c (fun x => k))
  (at level 61, c at next level, right associativity) : py_scope.
Notation "c ;; k" := (bind c (fun _ => k))
  (at level 61, right associativity) : py_scope.
Local Open Scope py_scope.

Definition set_output (o : ndarray) : M unit :=
  modify (fun s =>
    {| self_output := Some o;
       self_output_names := self_output_names s;
       tokenizer_padding_side := tokenizer_padding_side s;
       stdout := stdout s;
       names_computed := names_computed s;
       forward_calls := forward_calls s |}).

Definition set_output_names (n : list string) : M unit :=
  modify (fun s =>
    {| self_output := self_output s;
       self_output_names := Some n;
       tokenizer_padding_side := tokenizer_padding_side s;
       stdout := stdout s;
       names_computed := names_computed s;
       forward_calls := forward_calls s |}).

Definition set_padding_side (p : string) : M unit :=
  modify (fun s =>
    {| self_output := self_output s;
       self_output_names := self_output_names s;
       tokenizer_padding_side := p;
       stdout := stdout s;
       names_computed := names_computed s;
       forward_calls := forward_calls s |}).

Definition print (line : string) : M unit :=
  modify (fun s =>
    {| self_output := self_output s;
       self_output_names := self_output_names s;
       tokenizer_padding_side := tokenizer_padding_side s;
       stdout := stdout s ++ [line];
       names_computed := names_computed s;
       forward_calls := forward_calls s |}).

Definition tick_names_computed : M unit :=
  modify (fun s =>
    {| self_output := self_output s;
       self_output_names := self_output_names s;
       tokenizer_padding_side := tokenizer_padding_side s;
       stdout := stdout s;
       names_computed := S (names_computed s);
       forward_calls := forward_calls s |}).

Definition record_forward_call (call : ModelCall) : M unit :=
  modify (fun s =>
    {| self_output := self_output s;
       self_output_names := self_output_names s;
       tokenizer_padding_side := tokenizer_padding_side s;
       stdout := stdout s;
       names_computed := names_computed s;
       forward_calls := forward_calls s ++ [call] |}).

(** ** The class *)

Section TeacherForcing.

(** Rows of [X] (masked text, or images in the model agnostic case) and
    float64 scores. *)
Variable Input : Type.
Variable F : Type.
Context {float64 : Float64 F}.

(** The attributes [__init__] sets and no method changes, with the
    collaborators behind them.  The tokenizer is called with the padding
    side it holds at the time of the call.  [keep_prefix] and
    [keep_suffix] are what [parse_prefix_suffix_for_tokenizer] returns
    for the similarity tokenizer (that helper lives in another module). *)
Record TeacherForcing : Type := {
  inner_model : list Input -> result (list string);
  tolist : list Input -> list string;
  similarity_tokenizer : string -> list string -> result BatchEncoding;
  tokenizer_decode : list Z -> string;
  str_strip : string -> string;
  keep_prefix : Z;
  keep_suffix : Z;
  similarity_model : ModelCall -> result (list (list (list F)));
  config : Config;
  similarity_model_type : option backend;
  model_agnostic : bool;
  device : option string;
  batch_size : Z
}.

Variable self : TeacherForcing.

(** *** get_outputs (lines 157-180) *)
Definition get_outputs (X : ndarray) : M (list (list Z)) :=
  match X with
  | StrArr sentences =>
      side <- gets tokenizer_padding_side ;;
      enc <- lift (similarity_tokenizer self side sentences) ;;
      match input_ids enc with
      | [] => raise (IndexError "too many indices for array")
      | _ :: _ =>
          if keep_suffix self >? 0 then
            ret (map (Py.slice (Some (keep_prefix self))
                               (Some (- keep_suffix self)))
                     (input_ids enc))
          else
            ret (map (Py.slice (Some (keep_prefix self)) None)
                     (input_ids enc))
      end
  | IdArr ids => ret ids
  end.

(** *** get_output_names (lines 140-155) *)
Definition get_output_names (output : ndarray) : M (list string) :=
  tick_names_computed ;;
  output_ids <- get_outputs output ;;
  match output_ids with
  | [] => raise (IndexError "index 0 is out of bounds for axis 0")
  | row0 :: _ =>
      ret (map (fun x => str_strip self (tokenizer_decode self [x])) row0)
  end.

(** *** update_output_names (lines 124-138) *)
Definition update_output_names (output : ndarray) : M unit :=
  cached <- gets self_output ;;
  if match cached with
     | None => true
     | Some o => negb (array_equal o output)
     end
  then
    set_output output ;;
    names <- get_output_names output ;;
    set_output_names names
  else ret tt.

(** *** get_inputs (lines 182-209) *)
Definition get_inputs (X : list Input) (padding_side : string)
  : M BatchEncoding :=
  input_sentences <-
    (if model_agnostic self then lift (inner_model self X)
     else ret (tolist self X)) ;;
  set_padding_side padding_side ;;
  side <- gets tokenizer_padding_side ;;
  inputs <- lift (similarity_tokenizer self side input_sentences) ;;
  set_padding_side "right" ;;
  ret inputs.

(** *** get_logodds (lines 211-240) *)

(** [sp.special.logit]: log(p / (1 - p)). *)
Definition logit (p : F) : F := np_log (fdiv p (fsub fone p)).

Definition calc_logodds (arr : list F) : list F :=
  let total := np_sum (map np_exp arr) in
  let probs := map (fun x => fdiv (np_exp x) total) arr in
  map logit probs.

(** [np.apply_along_axis(f, -1, a)] for a three-dimensional [a]; numpy
    refuses an array with no slice to iterate over. *)
Definition apply_along_axis (f : list F -> list F)
    (a : list (list (list F))) : result (list (list (list F))) :=
  match a with
  | [] | [] :: _ =>
      Raise (ValueError
               "Cannot apply_along_axis when any iteration dimensions are 0")
  | _ => Ok (map (map f) a)
  end.

(** The ids whose scores are extracted (lines 226-230). *)
Definition logodds_output_ids : M (list Z) :=
  cached <- gets self_output ;;
  match cached with
  | None => raise (AttributeError "'NoneType' object has no attribute 'dtype'")
  | Some (StrArr sentences) =>
      ids <- get_outputs (StrArr sentences) ;;
      match ids with
      | [] => raise (IndexError "index 0 is out of bounds for axis 0")
      | row0 :: _ => ret row0
      end
  | Some (IdArr ids) =>
      match ids with
      | [] => raise (IndexError "index 0 is out of bounds for axis 0")
      | row0 :: _ => ret row0
      end
  end.

(** Lines 232-240: softmax and logit along the last axis, then the score
    of each position's output id. *)
Definition logodds_for_output_ids (output_ids : list Z)
    (logits : list (list (list F))) : result (list (list F)) :=
  match apply_along_axis calc_logodds logits with
  | Raise e => Raise e
  | Ok logodds =>
      match Np.take_pairs logodds
              (Py.range (Z.to_nat (Np.shape1 logodds))) output_ids with
      | Some picked => Ok picked
      | None => Raise (IndexError "index out of bounds or shape mismatch")
      end
  end.

Definition get_logodds (logits : list (list (list F))) : M (list (list F)) :=
  output_ids <- logodds_output_ids ;;
  lift (logodds_for_output_ids output_ids logits).

(** *** model_inference (lines 242-305) *)

(** Lines 269-274 and 291-295, the same under both backends: target ids
    appended to the source ids, ones appended to the mask, position ids
    counted along the mask.  [shape_error] is what the backend raises
    when the two batches have different row counts. *)
Definition position_ids_of (mask_row : list Z) : list Z :=
  map (fun mp => if fst mp =? 0 then 0 else snd mp)
      (combine mask_row (map (fun c => c - 1) (Np.cumsum mask_row))).

Definition decoder_only_inputs (shape_error : exn)
    (inputs : BatchEncoding) (output_ids : list (list Z))
  : result BatchEncoding :=
  match Np.cat_last (input_ids inputs) output_ids with
  | None => Raise shape_error
  | Some ids =>
      let attention_mask_for_output_ids := Np.ones_like output_ids in
      match Np.cat_last (attention_mask inputs)
              attention_mask_for_output_ids with
      | None => Raise shape_error
      | Some mask =>
          Ok {| input_ids := ids;
                attention_mask := mask;
                position_ids := Some (map position_ids_of mask) |}
      end
  end.

(** One forward pass: [self.similarity_model(...)]. *)
Definition forward (call : ModelCall) : M (list (list (list F))) :=
  record_forward_call call ;;
  lift (similarity_model self call).

(** [outputs.logits] where [outputs] is bound only if the forward pass
    returned. *)
Definition logits_of (outputs : option (list (list (list F))))
  : M (list (list (list F))) :=
  match outputs with
  | Some o => ret o
  | None => raise (UnboundLocalError "outputs")
  end.

(** The forward pass under [tf.device]: a RuntimeError is printed and
    [outputs] stays unbound (lines 284-288 and 299-303). *)
Definition forward_on_device (call : ModelCall)
  : M (option (list (list (list F)))) :=
  try_except_RuntimeError
    (o <- forward call ;; ret (Some o))
    (fun err => print (exn_str err) ;; ret None).

Definition model_inference (inputs : BatchEncoding)
    (output_ids : list (list Z)) : M (list (list (list F))) :=
  match similarity_model_type self with
  | Some pt =>
      if is_encoder_decoder (config self) then
        forward {| call_inputs := inputs;
                   decoder_input_ids := Some output_ids;
                   labels := Some output_ids |}
      else
        inputs' <- lift (decoder_only_inputs
                           (RuntimeError "Sizes of tensors must match")
                           inputs output_ids) ;;
        forward {| call_inputs := inputs';
                   decoder_input_ids := None;
                   labels := None |}
  | Some tf =>
      outputs <-
        (if is_encoder_decoder (config self) then
           let call := {| call_inputs := inputs;
                          decoder_input_ids := Some output_ids;
                          labels := Some output_ids |} in
           match device self with
           | None => o <- forward call ;; ret (Some o)
           | Some _ => forward_on_device call
           end
         else
           inputs' <- lift (decoder_only_inputs
                              (InvalidArgumentError "ConcatOp : Dimensions of inputs should match")
                              inputs output_ids) ;;
           let call := {| call_inputs := inputs';
                          decoder_input_ids := None;
                          labels := None |} in
           match device self with
           | None => o <- forward call ;; ret (Some o)
           | Some _ => forward_on_device call
           end) ;;
      logits_of outputs
  | None => raise (UnboundLocalError "logits")
  end.

(** *** get_teacher_forced_logits (lines 307-364) *)

(** The start token of an encoder-decoder model (lines 338-350): the
    first of three configuration attributes that is present and not
    [None]. *)
Definition resolve_decoder_start_token_id (c : Config) : result Z :=
  match decoder_start_token_id c with
  | Val v => Ok v
  | _ =>
      match bos_token_id c with
      | Val v => Ok v
      | _ =>
          match decoder c with
          | Val d =>
              match decoder_bos_token_id d with
              | Val v => Ok v
              | _ => Raise (ValueError "No decoder_start_token_id or bos_token_id defined in config for encoder-decoder generation")
              end
          | _ => Raise (ValueError "No decoder_start_token_id or bos_token_id defined in config for encoder-decoder generation")
          end
      end
  end.

(** Lines 352-353: a column holding the start token, then the target
    ids. *)
Definition prepend_start (start : Z) (output_ids : list (list Z))
  : result (list (list Z)) :=
  let output_start_id := map (fun _ => [1 * start]) output_ids in
  match Np.cat_last output_start_id output_ids with
  | Some ids => Ok ids
  | None => Raise (ValueError "all the input array dimensions must match")
  end.

Definition get_teacher_forced_logits (X : list Input) (Y : ndarray)
  : M (list (list (list F))) :=
  output_ids <- get_outputs Y ;;
  if is_encoder_decoder (config self) then
    inputs <- get_inputs X "right" ;;
    start <- lift (resolve_decoder_start_token_id (config self)) ;;
    output_ids' <- lift (prepend_start start output_ids) ;;
    logits <- model_inference inputs output_ids' ;;
    ret (map (Py.slice None (Some (-1))) logits)
  else
    inputs <- get_inputs X "left" ;;
    logits <- model_inference inputs output_ids ;;
    ret (map (Py.slice (Some (- Np.shape1 output_ids - 1)) (Some (-1)))
             logits).

(** *** __call__ (lines 92-122) *)

(** One pass of the body of the [while] loop: lines 113-116. *)
Definition batch_logodds (X_batch : list Input) (Y_batch : ndarray)
  : M (list (list F)) :=
  logits <- get_teacher_forced_logits X_batch Y_batch ;;
  get_logodds logits.

(** The [while] loop.  Each pass uses one unit of [fuel]; [None] says the
    loop was still running when the fuel ran out.  The value is Python's
    [output_batch]: [None] until the first pass has stored its rows. *)
Fixpoint call_loop (fuel : nat) (X : list Input) (Y : ndarray)
    (start_batch_idx : Z) (output_batch : option (list (list F)))
    (s : state) : option (result (option (list (list F))) * state) :=
  if start_batch_idx <? Z.of_nat (length X) then
    match fuel with
    | O => None
    | S fuel' =>
        let X_batch :=
          Py.slice (Some start_batch_idx)
                   (Some (start_batch_idx + batch_size self)) X in
        let Y_batch :=
          rows (Some start_batch_idx)
               (Some (start_batch_idx + batch_size self)) Y in
        match batch_logodds X_batch Y_batch s with
        | (Raise e, s') => Some (Raise e, s')
        | (Ok logodds, s') =>
            match output_batch with
            | None =>
                call_loop fuel' X Y (start_batch_idx + batch_size self)
                          (Some logodds) s'
            | Some o =>
                match Np.concatenate o logodds with
                | Some o' =>
                    call_loop fuel' X Y
                              (start_batch_idx + batch_size self)
                              (Some o') s'
                | None =>
                    Some (Raise (ValueError "all the input array dimensions except for the concatenation axis must match exactly"), s')
                end
            end
        end
    end
  else Some (Ok output_batch, s).

Definition __call__ (fuel : nat) (X : list Input) (Y : ndarray) (s : state)
  : option (result (option (list (list F))) * state) :=
  match update_output_names (rows None (Some 1) Y) s with
  | (Raise e, s') => Some (Raise e, s')
  | (Ok _, s') => call_loop fuel X Y 0 None s'
  end.

End TeacherForcing.

(** ** Predicates and reference definitions used by the theorems *)

(** A computation that never assigns [self.output]. *)
Definition keeps_output {A} (c : M A) : Prop :=
  forall s, self_output (snd (c s)) = self_output s.


(** The first attribute of a list that holds a value: the order of search
    the specification gives for the start token. *)
Fixpoint first_present (l : list (attr Z)) : option Z :=
  match l with
  | [] => None
  | Val v :: _ => Some v
  | _ :: t => first_present t
  end.

(** [config.decoder.bos_token_id], absent when there is no nested
    configuration to look into. *)
Definition nested_bos_token_id (c : Config) : attr Z :=
  match decoder c with
  | Val d => decoder_bos_token_id d
  | _ => Missing
  end.

Definition start_token_candidates (c : Config) : list (attr Z) :=
  [decoder_start_token_id c; bos_token_id c; nested_bos_token_id c].

(** Sum of the first [n] entries of a row: the cumulative sum at column
    [n - 1]. *)
Definition prefix_sum (n : nat) (row : list Z) : Z :=
  fold_right Z.add 0 (firstn n row).

(** [self.output = o] and nothing else. *)
Definition with_output (o : ndarray) (s : state) : state :=
  snd (set_output o s).

(** The state after one forward pass was recorded. *)
Definition called (call : ModelCall) (s : state) : state :=
  snd (record_forward_call call s).

(** Row by row concatenation of two matrices with the same row count. *)
Definition append_rows (a b : list (list Z)) : list (list Z) :=
  map (fun p => fst p ++ snd p) (combine a b).

(** What [get_teacher_forced_logits] makes of the result of inference. *)
Definition map_result {A B} (f : A -> B) (r : result A * state)
  : result B * state :=
  match r with
  | (Ok a, s) => (Ok (f a), s)
  | (Raise e, s) => (Raise e, s)
  end.

Definition no_start_token : exn :=
  ValueError "No decoder_start_token_id or bos_token_id defined in config for encoder-decoder generation".

(** A logits array of shape batch x position x vocabulary. *)
Definition has_shape {A} (B P V : nat) (a : list (list (list A))) : Prop :=
  length a = B
  /\ Forall (fun m => length m = P /\ Forall (fun v => length v = V) m) a.

(** The log odds of one token under one score vector, as the specification
    words it: the softmax probability [p] of the token, without any shift
    of the scores, then [log (p / (1 - p))]. *)
Definition logodds_at {F} `{Float64 F} (scores : list F) (id : Z) : F :=
  let p := fdiv (np_exp (nth (Z.to_nat id) scores fone))
                (np_sum (map np_exp scores)) in
  np_log (fdiv p (fsub fone p)).

(** *** The batch driver, as the specification words it

    [X] and [Y] are cut into consecutive batches of [n] rows (the last one
    may be shorter), the batches are scored one after the other, and the
    scores are concatenated in that order. *)

Definition batch_count (n len : nat) : nat := (len + n - 1) / n.

Definition batch_of {A} (n i : nat) (l : list A) : list A :=
  firstn n (skipn (i * n) l).

Definition nd_batch_of (n i : nat) (Y : ndarray) : ndarray :=
  match Y with
  | StrArr l => StrArr (batch_of n i l)
  | IdArr m => IdArr (batch_of n i m)
  end.

Definition batches_from {Input} (n : nat) (X : list Input) (Y : ndarray)
    (first count : nat) : list (list Input * ndarray) :=
  map (fun i => (batch_of n i X, nd_batch_of n i Y)) (seq first count).

Definition batches {Input} (n : nat) (X : list Input) (Y : ndarray)
  : list (list Input * ndarray) :=
  batches_from n X Y 0 (batch_count n (length X)).

(** The accumulated rows after more batches came in. *)
Definition join {A} (acc : option (list (list A))) (outs : list (list (list A)))
  : option (list (list A)) :=
  match acc, outs with
  | None, [] => None
  | None, _ => Some (concat outs)
  | Some o, _ => Some (o ++ concat outs)
  end.

Section Reference.

Variables (Input F : Type).
Context {float64 : Float64 F}.
Variable self : TeacherForcing Input F.

(** The batches scored in order, each from the state the one before
    left: the results, and the state after the last. *)
Fixpoint run_batches (bs : list (list Input * ndarray)) (s : state)
  : list (result (list (list F))) * state :=
  match bs with
  | [] => ([], s)
  | b :: rest =>
      let r := batch_logodds self (fst b) (snd b) s in
      let after := run_batches rest (snd r) in
      (fst r :: fst after, snd after)
  end.

(** The ids of the first row of a target [T] given outright, not read
    from the cache. *)
Definition target_ids (T : ndarray) : M (list Z) :=
  match T with
  | StrArr sentences =>
      ids <- get_outputs self (StrArr sentences) ;;
      match ids with
      | [] => raise (IndexError "index 0 is out of bounds for axis 0")
      | row0 :: _ => ret row0
      end
  | IdArr ids =>
      match ids with
      | [] => raise (IndexError "index 0 is out of bounds for axis 0")
      | row0 :: _ => ret row0
      end
  end.

(** [get_logodds] with the columns taken from [T]. *)
Definition get_logodds_for (T : ndarray) (logits : list (list (list F)))
  : M (list (list F)) :=
  output_ids <- target_ids T ;;
  lift (logodds_for_output_ids output_ids logits).

(** The driver in which every batch is scored at the columns of [T]. *)
Fixpoint call_loop_for (T : ndarray) (fuel : nat) (X : list Input)
    (Y : ndarray) (start_batch_idx : Z)
    (output_batch : option (list (list F))) (s : state)
  : option (result (option (list (list F))) * state) :=
  if start_batch_idx <? Z.of_nat (length X) then
    match fuel with
    | O => None
    | S fuel' =>
        let X_batch :=
          Py.slice (Some start_batch_idx)
                   (Some (start_batch_idx + batch_size self)) X in
        let Y_batch :=
          rows (Some start_batch_idx)
               (Some (start_batch_idx + batch_size self)) Y in
        match (logits <- get_teacher_forced_logits self X_batch Y_batch ;;
               get_logodds_for T logits) s with
        | (Raise e, s') => Some (Raise e, s')
        | (Ok logodds, s') =>
            match output_batch with
            | None =>
                call_loop_for T fuel' X Y
                  (start_batch_idx + batch_size self) (Some logodds) s'
            | Some o =>
                match Np.concatenate o logodds with
                | Some o' =>
                    call_loop_for T fuel' X Y
                      (start_batch_idx + batch_size self) (Some o') s'
                | None =>
                    Some (Raise (ValueError "all the input array dimensions except for the concatenation axis must match exactly"), s')
                end
            end
        end
    end
  else Some (Ok output_batch, s).

Definition call_with_target (T : ndarray) (fuel : nat) (X : list Input)
    (Y : ndarray) (s : state)
  : option (result (option (list (list F))) * state) :=
  match update_output_names self (rows None (Some 1) Y) s with
  | (Raise e, s') => Some (Raise e, s')
  | (Ok _, s') => call_loop_for T fuel X Y 0 None s'
  end.

End Reference.

(** The first row of a target array, alone. *)
Definition first_row (Y : ndarray) : ndarray :=
  match Y with
  | StrArr l => StrArr (firstn 1 l)
  | IdArr m => IdArr (firstn 1 m)
  end.

(** ** A small concrete instance

    Used to run the model: scores are symbolic float64 expressions, the
    tokenizer gives one token per character, and the similarity model
    returns, for each position, the scores [100 * position + column] over a
    vocabulary of four tokens. *)

Module Toy.

Local Unset Elimination Schemes.
Inductive sym : Type :=
| Lit (z : Z)
| Exp (x : sym)
| Sum (l : list sym)
| Div (x y : sym)
| Sub (x y : sym)
| One
| Log (x : sym).
Local Set Elimination Schemes.

#[global] Instance sym_float64 : Float64 sym := {|
  np_exp := Exp;
  np_sum := Sum;
  fdiv := Div;
  fsub := Sub;
  fone := One;
  np_log := Log
|}.

Definition vocab : nat := 4.

Fixpoint char_ids (w : string) : list Z :=
  match w with
  | EmptyString => []
  | String c t => (Z.of_nat (Ascii.nat_of_ascii c) mod 4) :: char_ids t
  end.

Definition width (rows : list (list Z)) : nat :=
  fold_right Nat.max O (map (@length Z) rows).

(** Padding with id 0 up to the longest row, on the side asked for. *)
Definition pad (side : string) (n : nat) (fill : Z) (row : list Z)
  : list Z :=
  let p := repeat fill (n - length row) in
  if String.eqb side "left" then p ++ row else row ++ p.

Definition tokenizer (side : string) (sentences : list string)
  : result BatchEncoding :=
  let rows := map char_ids sentences in
  let n := width rows in
  Ok {| input_ids := map (pad side n 0) rows;
        attention_mask :=
          map (fun r => pad side n 0 (map (fun _ => 1) r)) rows;
        position_ids := None |}.

Definition scores (position : nat) : list sym :=
  map (fun v => Lit (100 * Z.of_nat position + Z.of_nat v)) (seq 0 vocab).

(** One score vector per decoder position (encoder-decoder call) or per
    input position (decoder-only call). *)
Definition model (call : ModelCall) : result (list (list (list sym))) :=
  let ids := match decoder_input_ids call with
             | Some d => d
             | None => input_ids (call_inputs call)
             end in
  Ok (map (fun row => map scores (seq 0 (length row))) ids).

Definition cfg (enc_dec : bool) (start : attr Z) : Config :=
  {| is_encoder_decoder := enc_dec;
     is_decoder := Missing;
     decoder_start_token_id := start;
     bos_token_id := Missing;
     decoder := Missing |}.

Definition make (c : Config) (ty : option backend) (dev : option string)
    (bs : Z) : TeacherForcing string sym :=
  {| inner_model := fun X => Ok X;
     tolist := fun X => X;
     similarity_tokenizer := tokenizer;
     tokenizer_decode := fun ids => String.concat "" (map (fun _ => "t") ids);
     str_strip := fun w => w;
     keep_prefix := 0;
     keep_suffix := 0;
     similarity_model := model;
     config := c;
     similarity_model_type := ty;
     model_agnostic := false;
     device := dev;
     batch_size := bs |}.

(** The same object with a tokenizer or a similarity model that fails. *)
Definition with_tokenizer (t : string -> list string -> result BatchEncoding)
    (o : TeacherForcing string sym) : TeacherForcing string sym :=
  {| inner_model := inner_model o;
     tolist := tolist o;
     similarity_tokenizer := t;
     tokenizer_decode := tokenizer_decode o;
     str_strip := str_strip o;
     keep_prefix := keep_prefix o;
     keep_suffix := keep_suffix o;
     similarity_model := similarity_model o;
     config := config o;
     similarity_model_type := similarity_model_type o;
     model_agnostic := model_agnostic o;
     device := device o;
     batch_size := batch_size o |}.

Definition with_model
    (m : ModelCall -> result (list (list (list sym))))
    (o : TeacherForcing string sym) : TeacherForcing string sym :=
  {| inner_model := inner_model o;
     tolist := tolist o;
     similarity_tokenizer := similarity_tokenizer o;
     tokenizer_decode := tokenizer_decode o;
     str_strip := str_strip o;
     keep_prefix := keep_prefix o;
     keep_suffix := keep_suffix o;
     similarity_model := m;
     config := config o;
     similarity_model_type := similarity_model_type o;
     model_agnostic := model_agnostic o;
     device := device o;
     batch_size := batch_size o |}.

Definition failing_tokenizer (side : string) (sentences : list string)
  : result BatchEncoding :=
  Raise (OtherError "tokenizer failed").

Definition failing_model (call : ModelCall)
  : result (list (list (list sym))) :=
  Raise (RuntimeError "device placement failed").

Definition fresh : state :=
  {| self_output := None;
     self_output_names := None;
     tokenizer_padding_side := "right";
     stdout := [];
     names_computed := O;
     forward_calls := [] |}.

End Toy.

(** ** Further reference definitions *)

(** Everything of a state but the padding side of the tokenizer. *)
Definition but_padding_side (s : state)
  : option ndarray * option (list string) * list string * nat
    * list ModelCall :=
  (self_output s, self_output_names s, stdout s, names_computed s,
   forward_calls s).

(** ** The constructor (lines 27-90)

    [__init__] is modelled on its own: what it reads of its arguments and
    the attributes it sets.  A tokenizer is its pad and end-of-sequence
    tokens, a model is what [safe_isinstance] and the device comparison of
    line 87 say about it.  [models.TextGeneration] belongs to another
    module: its constructor is a function that returns or raises. *)

Module Init.

Record Tokenizer : Type := {
  pad_token : option string;
  eos_token : option string
}.

(** What the constructor asks of a model object: the two [safe_isinstance]
    tests, and for its [device] attribute [d] the comparisons
    [d == device] and [str(d) == device]. *)
Record ModelObject (Dev : Type) : Type := {
  is_PreTrainedModel : bool;
  is_TFPreTrainedModel : bool;
  device_eq : Dev -> bool;
  device_str_eq : Dev -> bool
}.

Record Attributes (Dev : Type) : Type := {
  tokenizer : option Tokenizer;
  device : option Dev;
  batch_size : Z;
  similarity_model : option (ModelObject Dev);
  similarity_tokenizer : option Tokenizer;
  model_agnostic : bool;
  output : option ndarray;
  output_names : option (list string);
  similarity_model_type : option backend
}.

Inductive outcome (Dev : Type) : Type :=
| Constructed (a : Attributes Dev)
| Raised (e : exn)
| AssertionError (msg : string).
Arguments Constructed {Dev} a.
Arguments Raised {Dev} e.
Arguments AssertionError {Dev} msg.

(** Lines 59-60 and 75-76: [pad_token] set to [eos_token] if not
    defined. *)
Definition set_pad_token (t : option Tokenizer) : option Tokenizer :=
  match t with
  | Some tok =>
      match pad_token tok with
      | None => Some {| pad_token := eos_token tok;
                        eos_token := eos_token tok |}
      | Some _ => Some tok
      end
  | None => None
  end.

Section Constructor.

Variable Dev : Type.

(** [models.TextGeneration(inner_model, tokenizer=..., device=...)]: given
    the tokenizer it receives, if any. *)
Variable TextGeneration : option Tokenizer -> option Dev -> result unit.

Definition __init__ (model : ModelObject Dev)
    (tokenizer : option Tokenizer)
    (similarity_model : option (ModelObject Dev))
    (similarity_tokenizer : option Tokenizer)
    (batch_size : Z) (device : option Dev) : outcome Dev :=
  let self_tokenizer := set_pad_token tokenizer in
  let transformer :=
    is_PreTrainedModel model || is_TFPreTrainedModel model in
  match (if transformer then TextGeneration self_tokenizer device
         else TextGeneration None device) with
  | Raise e => Raised e
  | Ok _ =>
      let self_similarity_model :=
        if transformer then Some model else similarity_model in
      let self_similarity_tokenizer :=
        if transformer then self_tokenizer
        else set_pad_token similarity_tokenizer in
      let built ty :=
        Constructed
          {| tokenizer := self_tokenizer;
             device := device;
             batch_size := batch_size;
             similarity_model := self_similarity_model;
             similarity_tokenizer := self_similarity_tokenizer;
             model_agnostic := negb transformer;
             output := None;
             output_names := None;
             similarity_model_type := ty |} in
      match self_similarity_model with
      | Some m =>
          if is_PreTrainedModel m then
            match device with
            | Some dev =>
                if device_eq m dev || device_str_eq m dev
                then built (Some pt)
                else AssertionError
                       "The passed similarity_model must be on the same device!"
            | None => built (Some pt)
            end
          else if is_TFPreTrainedModel m then built (Some tf)
          else built None
      | None => built None
      end
  end.

End Constructor.

End Init.

(** ** More small instances *)

Module Toy2.

(** The small object with some of its collaborators replaced. *)
Definition custom
    (inner : list string -> result (list string)) (agnostic : bool)
    (tok : string -> list string -> result BatchEncoding)
    (prefix suffix : Z)
    (o : TeacherForcing string Toy.sym) : TeacherForcing string Toy.sym :=
  {| inner_model := inner;
     tolist := tolist o;
     similarity_tokenizer := tok;
     tokenizer_decode := tokenizer_decode o;
     str_strip := str_strip o;
     keep_prefix := prefix;
     keep_suffix := suffix;
     similarity_model := similarity_model o;
     config := config o;
     similarity_model_type := similarity_model_type o;
     model_agnostic := agnostic;
     device := device o;
     batch_size := batch_size o |}.

Definition failing_inner_model (X : list string) : result (list string) :=
  Raise (OtherError "model failed").

(** A tokenizer that puts id 3 before and after every sentence. *)
Definition special_tokenizer (side : string) (sentences : list string)
  : result BatchEncoding :=
  match Toy.tokenizer side sentences with
  | Ok enc =>
      Ok {| input_ids := map (fun r => 3 :: r ++ [3]) (input_ids enc);
            attention_mask := map (fun r => 1 :: r ++ [1])
                                  (attention_mask enc);
            position_ids := None |}
  | Raise e => Raise e
  end.

(** A tokenizer that refuses an empty sentence. *)
Definition picky_tokenizer (side : string) (sentences : list string)
  : result BatchEncoding :=
  if existsb (String.eqb "") sentences
  then Raise (ValueError "empty sentence")
  else Toy.tokenizer side sentences.


Definition gpu_model : Init.ModelObject string :=
  {| Init.is_PreTrainedModel := true;
     Init.is_TFPreTrainedModel := false;
     Init.device_eq := fun _ => false;
     Init.device_str_eq := String.eqb "cuda:0" |}.

Definition text_generation (t : option Init.Tokenizer) (d : option string)
  : result unit := Ok tt.

End Toy2.

(** * Properties *)

(** ** Equality of targets *)

Lemma list_eqb_spec {A} (eqb : A -> A -> bool) :
  (forall x y, eqb x y = true <-> x = y) ->
  forall a b, list_eqb eqb a b = true <-> a = b.
Proof.
  intros Heq a; induction a as [|x a IH]; intros [|y b]; simpl;
    try (split; [discriminate | discriminate]); try tauto.
  rewrite andb_true_iff, Heq, IH. split.
  - intros [-> ->]; reflexivity.
  - intros E; injection E; auto.
Qed.

Lemma array_equal_spec (a b : ndarray) : array_equal a b = true <-> a = b.
Proof.
  destruct a as [x|x], b as [y|y]; simpl;
    try (split; [discriminate | discriminate]).
  - rewrite (list_eqb_spec String.eqb String.eqb_eq). split; congruence.
  - rewrite (list_eqb_spec (list_eqb Z.eqb) (list_eqb_spec Z.eqb Z.eqb_eq)).
    split; congruence.
Qed.

Lemma array_equal_refl (a : ndarray) : array_equal a a = true.
Proof. apply array_equal_spec; reflexivity. Qed.

(** ** Running computations *)

Ltac unfold_M :=
  unfold bind, ret, raise, lift, gets, modify, set_output, set_output_names,
    set_padding_side, print, tick_names_computed, record_forward_call,
    try_except_RuntimeError
    in *.

Lemma keeps_ret {A} (a : A) : keeps_output (ret a).
Proof. intros s; reflexivity. Qed.

Lemma keeps_raise {A} (e : exn) : keeps_output (@raise A e).
Proof. intros s; reflexivity. Qed.

Lemma keeps_lift {A} (r : result A) : keeps_output (lift r).
Proof. intros s; reflexivity. Qed.

Lemma keeps_gets {A} (f : state -> A) : keeps_output (gets f).
Proof. intros s; reflexivity. Qed.

Lemma keeps_set_padding_side p : keeps_output (set_padding_side p).
Proof. intros s; reflexivity. Qed.

Lemma keeps_print l : keeps_output (print l).
Proof. intros s; reflexivity. Qed.

Lemma keeps_tick : keeps_output tick_names_computed.
Proof. intros s; reflexivity. Qed.

Lemma keeps_record_forward_call c : keeps_output (record_forward_call c).
Proof. intros s; reflexivity. Qed.

Lemma keeps_bind {A B} (c : M A) (k : A -> M B) :
  keeps_output c -> (forall a, keeps_output (k a)) -> keeps_output (bind c k).
Proof.
  intros Hc Hk s. unfold bind. specialize (Hc s).
  destruct (c s) as [[a|e] s1]; simpl in *; [|assumption].
  rewrite Hk. assumption.
Qed.

Lemma keeps_try {A} (c : M A) (h : exn -> M A) :
  keeps_output c -> (forall e, keeps_output (h e)) ->
  keeps_output (try_except_RuntimeError c h).
Proof.
  intros Hc Hh s. unfold try_except_RuntimeError. specialize (Hc s).
  destruct (c s) as [[a|e] s1]; simpl in *; [assumption|].
  destruct e; simpl; try assumption. rewrite Hh. assumption.
Qed.

Create HintDb keeps.
#[export] Hint Resolve keeps_ret keeps_raise keeps_lift keeps_gets
  keeps_set_padding_side keeps_print keeps_tick keeps_record_forward_call
  : keeps.

Ltac keeps :=
  repeat first
    [ solve [auto with keeps]
    | progress cbv zeta
    | apply keeps_bind; [|intros ?]
    | apply keeps_try; [|intros ?]
    | match goal with
      | |- keeps_output (match ?x with _ => _ end) => destruct x
      | |- keeps_output (if ?x then _ else _) => destruct x
      end ].

Section Frame.

Variables (Input F : Type).
Context {float64 : Float64 F}.
Variable self : TeacherForcing Input F.

Lemma keeps_get_outputs X : keeps_output (get_outputs self X).
Proof. unfold get_outputs. keeps. Qed.

Lemma keeps_get_inputs X side : keeps_output (get_inputs self X side).
Proof. unfold get_inputs. keeps. Qed.

Lemma keeps_model_inference inputs ids :
  keeps_output (model_inference self inputs ids).
Proof.
  unfold model_inference, forward_on_device, logits_of, forward. keeps.
Qed.

Lemma keeps_get_teacher_forced_logits X Y :
  keeps_output (get_teacher_forced_logits self X Y).
Proof.
  unfold get_teacher_forced_logits.
  pose proof keeps_get_outputs. pose proof keeps_get_inputs.
  pose proof keeps_model_inference.
  keeps.
Qed.

Lemma keeps_logodds_output_ids : keeps_output (logodds_output_ids self).
Proof.
  unfold logodds_output_ids. pose proof keeps_get_outputs. keeps.
Qed.

Lemma keeps_get_logodds logits : keeps_output (get_logodds self logits).
Proof.
  unfold get_logodds. pose proof keeps_logodds_output_ids. keeps.
Qed.

Lemma keeps_batch_logodds X Y : keeps_output (batch_logodds self X Y).
Proof.
  unfold batch_logodds.
  pose proof keeps_get_teacher_forced_logits.
  pose proof keeps_get_logodds. keeps.
Qed.

End Frame.

(** ** The target cache (update_output_names) *)

Section Cache.

Variables (Input F : Type).
Variable self : TeacherForcing Input F.

Lemma get_outputs_state X s : snd (get_outputs self X s) = s.
Proof.
  unfold get_outputs. destruct X as [sentences|ids]; [|reflexivity].
  unfold_M.
  destruct (similarity_tokenizer self _ sentences) as [enc|e];
    [|reflexivity].
  destruct (input_ids enc); [reflexivity|].
  destruct (keep_suffix self >? 0); reflexivity.
Qed.

(** [get_output_names] changes nothing but its own counter. *)
Lemma get_output_names_state output s :
  snd (get_output_names self output s) = snd (tick_names_computed s).
Proof.
  unfold get_output_names. unfold bind at 1. simpl.
  unfold bind.
  pose proof (get_outputs_state output (snd (tick_names_computed s))) as E.
  simpl in E.
  destruct (get_outputs self output _) as [[ids|e] s1]; simpl in *;
    subst s1; [|reflexivity].
  destruct ids; reflexivity.
Qed.

Lemma update_output_names_hit o output s :
  self_output s = Some o -> array_equal o output = true ->
  update_output_names self output s = (Ok tt, s).
Proof.
  intros Ho Heq. unfold update_output_names. unfold_M.
  rewrite Ho, Heq. reflexivity.
Qed.

Lemma update_output_names_miss output s :
  match self_output s with
  | None => true
  | Some o => negb (array_equal o output)
  end = true ->
  update_output_names self output s =
  match get_output_names self output (with_output output s) with
  | (Ok names, s1) => set_output_names names s1
  | (Raise e, s1) => (Raise e, s1)
  end.
Proof.
  intros Hmiss. unfold update_output_names.
  unfold bind at 1. unfold gets at 1. rewrite Hmiss.
  unfold bind at 1. unfold set_output at 1. unfold modify at 1.
  unfold bind at 1. unfold with_output, set_output, modify. simpl.
  destruct (get_output_names self output _) as [[names|e] s1]; reflexivity.
Qed.

(** After a call the cache holds a target equal to the one passed. *)
Lemma cache_holds_target output s :
  exists o, self_output (snd (update_output_names self output s)) = Some o
            /\ array_equal o output = true.
Proof.
  destruct (match self_output s with
            | None => true
            | Some o => negb (array_equal o output)
            end) eqn:Hmiss.
  - rewrite (update_output_names_miss _ _ Hmiss).
    pose proof (get_output_names_state output (with_output output s)) as E.
    destruct (get_output_names self output _) as [[names|e] s1];
      simpl in E; subst s1; exists output; simpl;
      auto using array_equal_refl.
  - destruct (self_output s) as [o|] eqn:Ho; [|discriminate].
    apply negb_false_iff in Hmiss.
    rewrite (update_output_names_hit _ _ Ho Hmiss). eauto.
Qed.

(** C7.  A second [update_output_names] with a target equal by value
    ([np.array_equal]) to the first is a no-op: the whole state, hence the
    cached target, the output names and the count of recomputations, is
    what the first call left.  A call with a target that differs by value
    from the cached one (or with nothing cached yet) stores the new target and recomputes the names
    once; the names are stored when the recomputation returns. *)
Theorem update_output_names_cache :
  (forall T T' s0,
      array_equal T T' = true ->
      let s1 := snd (update_output_names self T s0) in
      update_output_names self T' s1 = (Ok tt, s1))
  /\
  (forall T s,
      (forall o, self_output s = Some o -> array_equal o T = false) ->
      let r := fst (update_output_names self T s) in
      let s' := snd (update_output_names self T s) in
      self_output s' = Some T
      /\ names_computed s' = S (names_computed s)
      /\ match fst (get_output_names self T (with_output T s)) with
         | Ok names => r = Ok tt /\ self_output_names s' = Some names
         | Raise e =>
             r = Raise e /\ self_output_names s' = self_output_names s
         end).
Proof.
  split.
  - intros T T' s0 Heq s1.
    destruct (cache_holds_target T s0) as (o & Ho & Eo).
    apply array_equal_spec in Eo, Heq. subst.
    eapply update_output_names_hit; [exact Ho|apply array_equal_refl].
  - intros T s Hne r s'. subst r s'.
    rewrite update_output_names_miss
      by (destruct (self_output s) as [o|]; [rewrite (Hne o)|]; reflexivity).
    pose proof (get_output_names_state T (with_output T s)) as E.
    destruct (get_output_names self T _) as [[names|e] s1];
      simpl in E; subst s1; simpl; auto.
Qed.

End Cache.

(** The cache at work: a new target, the same target again. *)
Lemma update_output_names_cache_witness :
  let self := Toy.make (Toy.cfg false Missing) (Some pt) None 2 in
  let s1 := snd (update_output_names self (IdArr [[1; 2]]) Toy.fresh) in
  update_output_names self (IdArr [[1; 2]]) s1 = (Ok tt, s1)
  /\ self_output (snd (update_output_names self (IdArr [[3]]) s1))
     = Some (IdArr [[3]])
  /\ names_computed (snd (update_output_names self (IdArr [[3]]) s1)) = 2%nat.
Proof.
  intros self s1.
  pose proof (update_output_names_cache self) as [Hsame Hdiff].
  split.
  - apply (Hsame (IdArr [[1; 2]]) (IdArr [[1; 2]]) Toy.fresh). reflexivity.
  - destruct (Hdiff (IdArr [[3]]) s1) as (H1 & H2 & _).
    + intros o Ho. injection Ho as <-. reflexivity.
    + split; [exact H1 | exact H2].
Defined.

(** ** The padding side of the shared tokenizer (get_inputs) *)

Section PaddingSide.

Variables (Input F : Type).
Variable self : TeacherForcing Input F.

(** C8, as the code has it.  Whenever [get_inputs] returns, the padding
    side of the tokenizer is back to ["right"], whatever side the call
    asked for and whatever side was set before. *)
Theorem get_inputs_restores_padding_side X padding_side s inputs s' :
  get_inputs self X padding_side s = (Ok inputs, s') ->
  tokenizer_padding_side s' = "right"%string.
Proof.
  unfold get_inputs. unfold_M.
  destruct (model_agnostic self).
  - destruct (inner_model self X) as [sentences|e]; [|discriminate].
    simpl.
    destruct (similarity_tokenizer self padding_side sentences);
      [|discriminate].
    intros E; injection E as _ <-. reflexivity.
  - simpl.
    destruct (similarity_tokenizer self padding_side (tolist self X));
      [|discriminate].
    intros E; injection E as _ <-. reflexivity.
Qed.

(** The restore is an assignment after the tokenizer call: when that call
    raises, the side set for the call stays. *)
Lemma get_inputs_raise_keeps_side X padding_side s sentences e :
  (if model_agnostic self then inner_model self X
   else Ok (tolist self X)) = Ok sentences ->
  similarity_tokenizer self padding_side sentences = Raise e ->
  let out := get_inputs self X padding_side s in
  fst out = Raise e /\ tokenizer_padding_side (snd out) = padding_side.
Proof.
  intros Hs Ht. unfold get_inputs. unfold_M.
  destruct (model_agnostic self).
  - rewrite Hs. simpl. rewrite Ht. simpl. auto.
  - injection Hs as <-. simpl. rewrite Ht. simpl. auto.
Qed.

End PaddingSide.

Lemma get_inputs_restores_padding_side_witness :
  let self := Toy.make (Toy.cfg false Missing) (Some pt) None 2 in
  tokenizer_padding_side
    (snd (get_inputs self ["ab"; "b"]%string "left" Toy.fresh))
  = "right"%string.
Proof.
  intros self.
  eapply (@get_inputs_restores_padding_side _ _ self ["ab"; "b"]%string
            "left"%string Toy.fresh).
  reflexivity.
Defined.

(** C8 fails on the error path: the tokenizer raises inside a call that
    asked for left padding, and the shared tokenizer is left padding on the
    left. *)
Lemma get_inputs_leaks_padding_side :
  let self :=
    Toy.with_tokenizer Toy.failing_tokenizer
      (Toy.make (Toy.cfg false Missing) (Some pt) None 2) in
  let out := get_inputs self ["ab"; "b"]%string "left" Toy.fresh in
  tokenizer_padding_side Toy.fresh = "right"%string
  /\ fst out = Raise (OtherError "tokenizer failed")
  /\ tokenizer_padding_side (snd out) = "left"%string
  /\ tokenizer_padding_side (snd out) <> "right"%string.
Proof.
  vm_compute. repeat split. discriminate.
Qed.

(** ** The forward pass (model_inference) *)

Section ForwardPass.

Variables (Input F : Type).
Variable self : TeacherForcing Input F.

Lemma forward_run call s :
  forward self call s = (similarity_model self call, called call s).
Proof.
  unfold forward, called. unfold_M. simpl.
  destruct (similarity_model self call); reflexivity.
Qed.

Lemma forward_on_device_run call s :
  forward_on_device self call s =
  match similarity_model self call with
  | Ok o => (Ok (Some o), called call s)
  | Raise (RuntimeError m) =>
      (Ok None, snd (print m (called call s)))
  | Raise e => (Raise e, called call s)
  end.
Proof.
  unfold forward_on_device, try_except_RuntimeError.
  unfold bind at 1. rewrite forward_run.
  destruct (similarity_model self call) as [o|e]; [reflexivity|].
  destruct e; reflexivity.
Qed.

Lemma app_one_neq {A} (l : list A) (x : A) : l ++ [x] <> l.
Proof.
  intros E. apply (f_equal (@length A)) in E.
  rewrite length_app in E. simpl in E. lia.
Qed.

(** C9, as the code has it.  Let the forward pass raise a RuntimeError
    (a device placement failure).  Under the tensorflow backend with a
    device configured the error is caught and its message printed, and it
    is not what the call raises.  Under the pytorch backend, and under
    tensorflow with no device configured, nothing catches it: the call
    raises that same error and prints nothing. *)
Theorem model_inference_runtime_error inputs output_ids s m :
  (forall call, similarity_model self call = Raise (RuntimeError m)) ->
  let r := fst (model_inference self inputs output_ids s) in
  let s' := snd (model_inference self inputs output_ids s) in
  forward_calls s' <> forward_calls s ->
  match similarity_model_type self, device self with
  | Some tf, Some _ =>
      stdout s' = stdout s ++ [m]
      /\ forall m', r <> Raise (RuntimeError m')
  | _, _ =>
      r = Raise (RuntimeError m) /\ stdout s' = stdout s
  end.
Proof.
  intros Hfail r s'. subst r s'. unfold model_inference.
  destruct (similarity_model_type self) as [[|]|];
    destruct (device self);
    destruct (is_encoder_decoder (config self));
    unfold bind, lift, ret, logits_of, raise;
    try match goal with
      | |- context [decoder_only_inputs ?e ?i ?o] =>
          destruct (decoder_only_inputs e i o)
      end;
    rewrite ?forward_on_device_run, ?forward_run, ?Hfail; simpl;
    intros Hcalled;
    try (exfalso; apply Hcalled; reflexivity);
    split; try reflexivity; discriminate.
Qed.

End ForwardPass.

Lemma model_inference_runtime_error_witness :
  let inputs := {| input_ids := [[1; 2]]; attention_mask := [[1; 1]];
                   position_ids := None |} in
  let on_device :=
    Toy.with_model Toy.failing_model
      (Toy.make (Toy.cfg true (Val 3)) (Some tf) (Some "GPU:0"%string) 2) in
  let torch :=
    Toy.with_model Toy.failing_model
      (Toy.make (Toy.cfg true (Val 3)) (Some pt) None 2) in
  (stdout (snd (model_inference on_device inputs [[3; 1; 2]] Toy.fresh))
   = ["device placement failed"%string]
   /\ forall m',
      fst (model_inference on_device inputs [[3; 1; 2]] Toy.fresh)
      <> Raise (RuntimeError m'))
  /\ (fst (model_inference torch inputs [[3; 1; 2]] Toy.fresh)
      = Raise (RuntimeError "device placement failed")
      /\ stdout (snd (model_inference torch inputs [[3; 1; 2]] Toy.fresh))
         = []).
Proof.
  intros inputs on_device torch. split.
  - apply (@model_inference_runtime_error _ _ on_device inputs [[3; 1; 2]]
             Toy.fresh "device placement failed"%string).
    + intros call. reflexivity.
    + vm_compute. discriminate.
  - apply (@model_inference_runtime_error _ _ torch inputs [[3; 1; 2]]
             Toy.fresh "device placement failed"%string).
    + intros call. reflexivity.
    + vm_compute. discriminate.
Defined.

(** C9 fails as stated.  Under tensorflow with a device the error is caught
    and printed, but the call then raises for want of a result; under
    pytorch the error reaches the caller and nothing is printed. *)
Lemma model_inference_failure_not_absorbed :
  let inputs := {| input_ids := [[1; 2]]; attention_mask := [[1; 1]];
                   position_ids := None |} in
  let on_device :=
    Toy.with_model Toy.failing_model
      (Toy.make (Toy.cfg true (Val 3)) (Some tf) (Some "GPU:0"%string) 2) in
  let torch :=
    Toy.with_model Toy.failing_model
      (Toy.make (Toy.cfg true (Val 3)) (Some pt) None 2) in
  is_ok (fst (model_inference on_device inputs [[3; 1; 2]] Toy.fresh)) = false
  /\ fst (model_inference on_device inputs [[3; 1; 2]] Toy.fresh)
     = Raise (UnboundLocalError "outputs")
  /\ fst (model_inference torch inputs [[3; 1; 2]] Toy.fresh)
     = Raise (RuntimeError "device placement failed")
  /\ stdout (snd (model_inference torch inputs [[3; 1; 2]] Toy.fresh)) = [].
Proof.
  vm_compute. repeat split.
Qed.

(** ** Decoder-only inputs: concatenation, mask and position ids *)

Lemma cat_last_zip (a b : list (list Z)) :
  length a = length b ->
  Np.cat_last a b = Some (map (fun p => fst p ++ snd p) (combine a b)).
Proof.
  revert b; induction a as [|ra a IH]; intros [|rb b] Hlen;
    simpl in *; try discriminate; [reflexivity|].
  rewrite IH by lia. reflexivity.
Qed.

Lemma cat_last_length (a b c : list (list Z)) :
  Np.cat_last a b = Some c -> length a = length b.
Proof.
  revert b c; induction a as [|ra a IH]; intros [|rb b] c; simpl;
    try discriminate; [reflexivity|].
  destruct (Np.cat_last a b) eqn:E; [|discriminate].
  intros _. f_equal. eapply IH; eassumption.
Qed.

Lemma cumsum_positions (row : list Z) :
  forall acc j m,
    nth_error row j = Some m ->
    nth_error
      (map (fun mp : Z * Z => if fst mp =? 0 then 0 else snd mp)
           (combine row (map (fun c => c - 1) (Np.cumsum_from acc row)))) j
    = Some (if m =? 0 then 0 else acc + prefix_sum (S j) row - 1).
Proof.
  unfold prefix_sum.
  induction row as [|x row IH]; intros acc [|j] m H; simpl in *;
    try discriminate.
  - injection H as ->. f_equal.
    destruct (m =? 0); [reflexivity|]. lia.
  - rewrite (IH _ _ _ H). f_equal.
    destruct (m =? 0); [reflexivity|]. simpl. lia.
Qed.

Lemma position_ids_of_nth (row : list Z) j m :
  nth_error row j = Some m ->
  nth_error (position_ids_of row) j
  = Some (if m =? 0 then 0 else prefix_sum (S j) row - 1).
Proof.
  intros H. unfold position_ids_of, Np.cumsum.
  rewrite (cumsum_positions row 0 j H). reflexivity.
Qed.

Lemma cumsum_from_length acc row :
  length (Np.cumsum_from acc row) = length row.
Proof.
  revert acc; induction row as [|x row IH]; intros acc; simpl;
    [reflexivity|]. rewrite IH. reflexivity.
Qed.

Lemma position_ids_of_length (row : list Z) :
  length (position_ids_of row) = length row.
Proof.
  unfold position_ids_of, Np.cumsum.
  rewrite length_map, length_combine, length_map, cumsum_from_length.
  apply Nat.min_id.
Qed.

Lemma decoder_only_inputs_ok e inputs output_ids inputs' :
  decoder_only_inputs e inputs output_ids = Ok inputs' ->
  Np.cat_last (input_ids inputs) output_ids = Some (input_ids inputs')
  /\ Np.cat_last (attention_mask inputs) (Np.ones_like output_ids)
     = Some (attention_mask inputs')
  /\ position_ids inputs'
     = Some (map position_ids_of (attention_mask inputs')).
Proof.
  unfold decoder_only_inputs.
  destruct (Np.cat_last (input_ids inputs) output_ids); [|discriminate].
  destruct (Np.cat_last (attention_mask inputs) _); [|discriminate].
  intros E; injection E as <-. simpl. auto.
Qed.

Lemma decoder_only_inputs_some e inputs output_ids :
  length (input_ids inputs) = length output_ids ->
  length (attention_mask inputs) = length output_ids ->
  exists inputs', decoder_only_inputs e inputs output_ids = Ok inputs'.
Proof.
  intros H1 H2. unfold decoder_only_inputs.
  rewrite (cat_last_zip _ _ H1).
  rewrite cat_last_zip
    by (unfold Np.ones_like; rewrite length_map; exact H2).
  eauto.
Qed.

Section DecoderOnly.

Variables (Input F : Type).
Variable self : TeacherForcing Input F.
Hypothesis decoder_only : is_encoder_decoder (config self) = false.

(** What the forward pass of a decoder-only model is called with. *)
Lemma model_inference_decoder_only_call inputs output_ids s call :
  forward_calls (snd (model_inference self inputs output_ids s))
  = forward_calls s ++ [call] ->
  exists e inputs',
    decoder_only_inputs e inputs output_ids = Ok inputs'
    /\ call = {| call_inputs := inputs';
                 decoder_input_ids := None;
                 labels := None |}.
Proof.
  unfold model_inference. rewrite decoder_only.
  destruct (similarity_model_type self) as [[|]|];
    destruct (device self);
    unfold bind, lift, ret, logits_of, raise;
    try match goal with
      | |- context [decoder_only_inputs ?e ?i ?o] =>
          destruct (decoder_only_inputs e i o) as [inputs'|] eqn:E
      end;
    rewrite ?forward_on_device_run, ?forward_run;
    repeat match goal with
      | |- context [similarity_model self ?c] =>
          destruct (similarity_model self c) as [?|[]]
      end;
    simpl; intros H;
    try (symmetry in H; apply app_one_neq in H; contradiction);
    apply app_inv_head in H; injection H as <-; eauto.
Qed.

Lemma model_inference_decoder_only_called inputs output_ids s :
  similarity_model_type self <> None ->
  length (input_ids inputs) = length output_ids ->
  length (attention_mask inputs) = length output_ids ->
  exists call,
    forward_calls (snd (model_inference self inputs output_ids s))
    = forward_calls s ++ [call].
Proof.
  intros Hty H1 H2. unfold model_inference. rewrite decoder_only.
  destruct (similarity_model_type self) as [[|]|]; [| |congruence];
    destruct (device self);
    unfold bind, lift, ret, logits_of, raise;
    match goal with
    | |- context [decoder_only_inputs ?e ?i ?o] =>
        destruct (decoder_only_inputs_some e i o H1 H2) as [inputs' ->]
    end;
    rewrite ?forward_on_device_run, ?forward_run;
    repeat match goal with
      | |- context [similarity_model self ?c] =>
          destruct (similarity_model self c) as [?|[]]
      end;
    simpl; eauto.
Qed.

(** C6.  Every forward pass of a decoder-only model gets position ids
    equal, column by column, to the cumulative sum of the attention mask
    it is given minus one, and to 0 where that mask is 0.  The pass takes
    place whenever a backend is set and the source and target batches
    have the same number of rows. *)
Theorem decoder_only_position_ids inputs output_ids s :
  let s' := snd (model_inference self inputs output_ids s) in
  (forall call,
      forward_calls s' = forward_calls s ++ [call] ->
      exists pos,
        position_ids (call_inputs call) = Some pos
        /\ length pos = length (attention_mask (call_inputs call))
        /\ forall b mask_row,
            nth_error (attention_mask (call_inputs call)) b
            = Some mask_row ->
            exists pos_row,
              nth_error pos b = Some pos_row
              /\ length pos_row = length mask_row
              /\ forall j m,
                  nth_error mask_row j = Some m ->
                  nth_error pos_row j
                  = Some (if m =? 0 then 0
                          else prefix_sum (S j) mask_row - 1))
  /\ (similarity_model_type self <> None ->
      length (input_ids inputs) = length output_ids ->
      length (attention_mask inputs) = length output_ids ->
      exists call, forward_calls s' = forward_calls s ++ [call]).
Proof.
  intros s'. split.
  - intros call Hcall.
    destruct (model_inference_decoder_only_call _ _ _ _ Hcall)
      as (e & inputs' & Hin & ->).
    destruct (decoder_only_inputs_ok _ _ _ Hin) as (_ & _ & Hpos).
    simpl. eexists. split; [exact Hpos|]. split.
    + apply length_map.
    + intros b mask_row Hb.
      exists (position_ids_of mask_row). split.
      * rewrite nth_error_map, Hb. reflexivity.
      * split; [apply position_ids_of_length|].
        intros j m Hj. apply position_ids_of_nth; assumption.
  - apply model_inference_decoder_only_called.
Qed.

End DecoderOnly.

Lemma decoder_only_position_ids_witness :
  let self := Toy.make (Toy.cfg false Missing) (Some pt) None 2 in
  let inputs := {| input_ids := [[0; 0; 1]; [2; 3; 1]];
                   attention_mask := [[0; 0; 1]; [1; 1; 1]];
                   position_ids := None |} in
  let s' := snd (model_inference self inputs [[1; 2]; [1; 2]] Toy.fresh) in
  exists call,
    forward_calls s' = [call]
    /\ attention_mask (call_inputs call) = [[0; 0; 1; 1; 1]; [1; 1; 1; 1; 1]]
    /\ position_ids (call_inputs call)
       = Some [[0; 0; 0; 1; 2]; [0; 1; 2; 3; 4]].
Proof.
  intros self inputs s'.
  destruct (@decoder_only_position_ids _ _ self eq_refl inputs
              [[1; 2]; [1; 2]] Toy.fresh) as [_ Hcalled].
  destruct Hcalled as [call Hcall];
    [discriminate | reflexivity | reflexivity |].
  exists call. split; [exact Hcall|].
  vm_compute in Hcall. injection Hcall as <-.
  split; reflexivity.
Defined.

(** ** Slices *)

Lemma slice_drop_last {A} (l : list A) :
  Py.slice None (Some (-1)) l = removelast l.
Proof.
  unfold Py.slice, Py.clamp.
  change (-1 <? 0) with true. cbv iota.
  change (Z.to_nat 0) with 0%nat. rewrite skipn_O.
  rewrite removelast_firstn_len. f_equal. lia.
Qed.

Lemma slice_first {A} (l : list A) :
  Py.slice None (Some 1) l = firstn 1 l.
Proof.
  unfold Py.slice, Py.clamp.
  change (1 <? 0) with false. cbv iota.
  change (Z.to_nat 0) with 0%nat. rewrite skipn_O.
  destruct l as [|x l]; [reflexivity|].
  replace (Z.to_nat (Z.min 1 (Z.of_nat (length (x :: l))) - 0)) with 1%nat
    by (simpl length; lia).
  reflexivity.
Qed.

(** The window [[-L-1 : -1]] of a sequence with at least [L + 1]
    entries: the [L] entries that end one before the last. *)
Lemma slice_window {A} (L : nat) (l : list A) :
  (L + 1 <= length l)%nat ->
  Py.slice (Some (- Z.of_nat L - 1)) (Some (-1)) l
  = firstn L (skipn (length l - L - 1) l).
Proof.
  intros H. unfold Py.slice, Py.clamp.
  replace (- Z.of_nat L - 1 <? 0) with true by (symmetry; apply Z.ltb_lt; lia).
  change (-1 <? 0) with true. cbv iota.
  f_equal; [|f_equal]; lia.
Qed.

Lemma slice_window_length {A} (L : nat) (l : list A) :
  (L + 1 <= length l)%nat ->
  length (Py.slice (Some (- Z.of_nat L - 1)) (Some (-1)) l) = L.
Proof.
  intros H. rewrite slice_window by assumption.
  rewrite length_firstn, length_skipn. lia.
Qed.

(** Without a position to look back to, the window is one short. *)
Lemma slice_window_short {A} (L : nat) (l : list A) :
  length l = L ->
  length (Py.slice (Some (- Z.of_nat L - 1)) (Some (-1)) l) = pred L.
Proof.
  intros H. unfold Py.slice, Py.clamp.
  replace (- Z.of_nat L - 1 <? 0) with true by (symmetry; apply Z.ltb_lt; lia).
  change (-1 <? 0) with true. cbv iota.
  rewrite length_firstn, length_skipn. lia.
Qed.

(** ** Encoder-decoder alignment *)

Lemma prepend_start_cons start (output_ids : list (list Z)) :
  prepend_start start output_ids = Ok (map (cons start) output_ids).
Proof.
  unfold prepend_start.
  rewrite cat_last_zip by apply length_map.
  f_equal. rewrite Z.mul_1_l.
  induction output_ids as [|row t IH]; simpl; [reflexivity|].
  f_equal. exact IH.
Qed.

Lemma resolve_first_present (c : Config) :
  resolve_decoder_start_token_id c =
  match first_present (start_token_candidates c) with
  | Some v => Ok v
  | None => Raise no_start_token
  end.
Proof.
  unfold resolve_decoder_start_token_id, start_token_candidates,
    nested_bos_token_id, no_start_token.
  destruct (decoder_start_token_id c), (bos_token_id c),
    (decoder c) as [| |d]; simpl; try reflexivity;
    destruct (decoder_bos_token_id d); reflexivity.
Qed.

Lemma drop_last_positions {A} start (ids : list (list Z)) :
  forall logits : list (list A),
    Forall2 (fun m row => length m = length row) logits (map (cons start) ids) ->
    Forall2 (fun m row => length m = length row)
            (map (@removelast A) logits) ids.
Proof.
  induction ids as [|row t IH]; intros logits Hshape;
    inversion Hshape; subst; simpl; constructor.
  - rewrite removelast_firstn_len, length_firstn. simpl in *. lia.
  - apply IH. assumption.
Qed.

Section EncoderDecoder.

Variables (Input F : Type).
Variable self : TeacherForcing Input F.
Hypothesis encoder_decoder : is_encoder_decoder (config self) = true.

Variables (X : list Input) (Y : ndarray).
Variables (s s1 s2 : state).
Variables (output_ids : list (list Z)) (inputs : BatchEncoding).
Hypothesis outputs_ok : get_outputs self Y s = (Ok output_ids, s1).
Hypothesis inputs_ok : get_inputs self X "right" s1 = (Ok inputs, s2).

Lemma get_teacher_forced_logits_encoder_decoder :
  get_teacher_forced_logits self X Y s =
  match resolve_decoder_start_token_id (config self) with
  | Raise e => (Raise e, s2)
  | Ok start =>
      map_result (map (@removelast (list F)))
        (model_inference self inputs (map (cons start) output_ids) s2)
  end.
Proof.
  unfold get_teacher_forced_logits.
  unfold bind at 1. rewrite outputs_ok, encoder_decoder.
  unfold bind at 1. rewrite inputs_ok.
  unfold bind at 1. unfold lift at 1.
  destruct (resolve_decoder_start_token_id (config self)) as [start|e];
    [|reflexivity].
  unfold bind at 1. unfold lift at 1. rewrite prepend_start_cons.
  unfold bind, map_result, ret.
  destruct (model_inference self inputs _ s2) as [[logits|e] s3];
    [|reflexivity].
  f_equal. f_equal. apply map_ext. intros m. apply slice_drop_last.
Qed.

(** What the forward pass of an encoder-decoder model is called with. *)
Lemma model_inference_encoder_decoder_call ids st logits st' :
  model_inference self inputs ids st = (Ok logits, st') ->
  forward_calls st'
  = forward_calls st ++ [{| call_inputs := inputs;
                            decoder_input_ids := Some ids;
                            labels := Some ids |}].
Proof.
  unfold model_inference. rewrite encoder_decoder.
  destruct (similarity_model_type self) as [[|]|];
    destruct (device self);
    unfold bind, lift, ret, logits_of, raise;
    rewrite ?forward_on_device_run, ?forward_run;
    repeat match goal with
      | |- context [similarity_model self ?c] =>
          destruct (similarity_model self c) as [?|[]]
      end;
    simpl; intros E; try discriminate; injection E as _ <-; reflexivity.
Qed.

(** C3.  The start token of an encoder-decoder model is the first, in the
    order [decoder_start_token_id], [bos_token_id],
    [decoder.bos_token_id], of the configuration attributes that are
    present and not [None].  Once the target and the source are
    tokenized, and inference itself permitting,
    [get_teacher_forced_logits] raises if and only if none of the three
    is; the error is the ValueError of line 348, raised before any
    forward pass. *)
Theorem start_token_resolution :
  (forall ids st, is_ok (fst (model_inference self inputs ids st)) = true) ->
  let c := config self in
  resolve_decoder_start_token_id c =
    match first_present [decoder_start_token_id c; bos_token_id c;
                         nested_bos_token_id c] with
    | Some v => Ok v
    | None => Raise no_start_token
    end
  /\ (is_ok (fst (get_teacher_forced_logits self X Y s)) = false
      <-> first_present [decoder_start_token_id c; bos_token_id c;
                         nested_bos_token_id c] = None)
  /\ (first_present [decoder_start_token_id c; bos_token_id c;
                     nested_bos_token_id c] = None ->
      get_teacher_forced_logits self X Y s = (Raise no_start_token, s2)).
Proof.
  intros Hinf c. subst c.
  pose proof (resolve_first_present (config self)) as R.
  unfold start_token_candidates in R.
  split; [exact R|].
  rewrite get_teacher_forced_logits_encoder_decoder, R.
  destruct (first_present _) as [start|].
  - split; [split; [|discriminate]|discriminate].
    specialize (Hinf (map (cons start) output_ids) s2).
    destruct (model_inference self inputs _ s2) as [[logits|e] s3];
      simpl in *; congruence.
  - split; [split; reflexivity|reflexivity].
Qed.

(** C4.  With the start token resolved, the decoder input of the forward
    pass is the target matrix with the start token put in front of every
    row: its first column is the start token and the rest is the target,
    shifted right by one.  The last position of the logits that come back
    is dropped; when the model returns one position per decoder input
    column, what is returned has exactly as many positions as the target
    has columns. *)
Theorem encoder_decoder_alignment start :
  resolve_decoder_start_token_id (config self) = Ok start ->
  let decoder_input := map (cons start) output_ids in
  Forall (fun row => hd_error row = Some start) decoder_input
  /\ map (@tl Z) decoder_input = output_ids
  /\ get_teacher_forced_logits self X Y s
     = map_result (map (@removelast (list F)))
         (model_inference self inputs decoder_input s2)
  /\ forall logits s3,
      model_inference self inputs decoder_input s2 = (Ok logits, s3) ->
      forward_calls s3
      = forward_calls s2 ++ [{| call_inputs := inputs;
                                decoder_input_ids := Some decoder_input;
                                labels := Some decoder_input |}]
      /\ (Forall2 (fun m row => length m = length row)
                  logits decoder_input ->
          exists out,
            get_teacher_forced_logits self X Y s = (Ok out, s3)
            /\ Forall2 (fun m row => length m = length row)
                       out output_ids).
Proof.
  intros Hstart decoder_input. subst decoder_input.
  split; [|split; [|split]].
  - apply Forall_forall. intros row Hin.
    apply in_map_iff in Hin. destruct Hin as (r & <- & _). reflexivity.
  - rewrite map_map. simpl. apply map_id.
  - rewrite get_teacher_forced_logits_encoder_decoder, Hstart.
    reflexivity.
  - intros logits s3 Hrun. split.
    + eapply model_inference_encoder_decoder_call; eassumption.
    + intros Hshape.
      rewrite get_teacher_forced_logits_encoder_decoder, Hstart, Hrun.
      simpl. eexists; split; [reflexivity|].
      eapply drop_last_positions; eassumption.
Qed.

End EncoderDecoder.

(** ** Decoder-only alignment *)

Lemma ones_like_repeat (m : list (list Z)) :
  Np.ones_like m = map (fun row => repeat 1 (length row)) m.
Proof.
  unfold Np.ones_like. apply map_ext. intros row.
  induction row as [|x row IH]; simpl; [reflexivity|]. rewrite IH.
  reflexivity.
Qed.

Lemma decoder_only_inputs_any_error e e' inputs output_ids inputs' :
  decoder_only_inputs e inputs output_ids = Ok inputs' ->
  decoder_only_inputs e' inputs output_ids = Ok inputs'.
Proof.
  unfold decoder_only_inputs.
  destruct (Np.cat_last (input_ids inputs) output_ids); [|discriminate].
  destruct (Np.cat_last (attention_mask inputs) _); [|discriminate].
  auto.
Qed.

Lemma map_result_state {A B} (f : A -> B) (r : result A * state) :
  snd (map_result f r) = snd r.
Proof. destruct r as [[a|e] st]; reflexivity. Qed.

Section DecoderOnlyAlignment.

Variables (Input F : Type).
Variable self : TeacherForcing Input F.
Hypothesis decoder_only : is_encoder_decoder (config self) = false.
Hypothesis backend_set : similarity_model_type self <> None.

Variables (X : list Input) (Y : ndarray).
Variables (s s1 s2 : state).
Variables (output_ids : list (list Z)) (inputs : BatchEncoding).
Hypothesis outputs_ok : get_outputs self Y s = (Ok output_ids, s1).
Hypothesis inputs_ok : get_inputs self X "left" s1 = (Ok inputs, s2).

Lemma get_teacher_forced_logits_decoder_only :
  get_teacher_forced_logits self X Y s =
  map_result
    (map (Py.slice (Some (- Np.shape1 output_ids - 1)) (Some (-1))))
    (model_inference self inputs output_ids s2).
Proof.
  unfold get_teacher_forced_logits.
  unfold bind at 1. rewrite outputs_ok, decoder_only.
  unfold bind at 1. rewrite inputs_ok.
  unfold bind, map_result, ret.
  destruct (model_inference self inputs _ s2) as [[logits|e] s3];
    reflexivity.
Qed.

Lemma model_inference_decoder_only_ok e inputs' logits st :
  decoder_only_inputs e inputs output_ids = Ok inputs' ->
  similarity_model self {| call_inputs := inputs';
                           decoder_input_ids := None;
                           labels := None |} = Ok logits ->
  model_inference self inputs output_ids st
  = (Ok logits, called {| call_inputs := inputs';
                          decoder_input_ids := None;
                          labels := None |} st).
Proof.
  intros Hin Hm. unfold model_inference. rewrite decoder_only.
  destruct (similarity_model_type self) as [[|]|]; [| |congruence];
    destruct (device self);
    unfold bind, lift, ret, logits_of, raise;
    match goal with
    | |- context [decoder_only_inputs ?e' ?i ?o] =>
        rewrite (@decoder_only_inputs_any_error _ e' _ _ _ Hin)
    end;
    rewrite ?forward_on_device_run, ?forward_run, Hm; reflexivity.
Qed.

(** C5, as the code has it.  For a decoder-only model whose source and
    target batches have the same number of rows, the forward pass gets
    the target ids appended to the right of the source ids, row by row,
    and the source attention mask extended by ones over the appended
    columns.  What is returned is the logits of the model cut to the
    window [[-L-1 : -1]] of the position axis, [L] the target length; for
    every batch item with at least [L + 1] positions (a source of at
    least one token) these are exactly [L] positions, the last of them
    one before the last position of the model. *)
Theorem decoder_only_alignment :
  length (input_ids inputs) = length output_ids ->
  length (attention_mask inputs) = length output_ids ->
  let L := length (hd [] output_ids) in
  let window := Py.slice (A:=list F) (Some (- Z.of_nat L - 1)) (Some (-1)) in
  exists call,
    forward_calls (snd (get_teacher_forced_logits self X Y s))
    = forward_calls s2 ++ [call]
    /\ input_ids (call_inputs call)
       = append_rows (input_ids inputs) output_ids
    /\ attention_mask (call_inputs call)
       = append_rows (attention_mask inputs)
           (map (fun row => repeat 1 (length row)) output_ids)
    /\ forall logits,
        similarity_model self call = Ok logits ->
        fst (get_teacher_forced_logits self X Y s)
        = Ok (map window logits)
        /\ forall m,
            In m logits ->
            (L + 1 <= length m)%nat ->
            window m = firstn L (skipn (length m - L - 1) m)
            /\ length (window m) = L.
Proof.
  intros H1 H2 L window.
  rewrite get_teacher_forced_logits_decoder_only, map_result_state.
  destruct (model_inference_decoder_only_called self decoder_only
              inputs output_ids s2 backend_set H1 H2) as [call Hcall].
  exists call. split; [exact Hcall|].
  destruct (model_inference_decoder_only_call self decoder_only
              _ _ _ _ Hcall) as (e & inputs' & Hin & ->).
  destruct (decoder_only_inputs_ok _ _ _ Hin) as (Hids & Hmask & _).
  simpl. split; [|split].
  - rewrite (cat_last_zip _ _ H1) in Hids. injection Hids as <-.
    reflexivity.
  - rewrite cat_last_zip in Hmask
      by (unfold Np.ones_like; rewrite length_map; exact H2).
    injection Hmask as <-. rewrite ones_like_repeat. reflexivity.
  - intros logits Hm.
    rewrite (model_inference_decoder_only_ok _ _ Hin Hm). simpl.
    split; [reflexivity|].
    intros m _ Hlen. subst window. split.
    + apply slice_window. exact Hlen.
    + apply slice_window_length. exact Hlen.
Qed.

End DecoderOnlyAlignment.

(** ** The alignment theorems on the small instance *)

Lemma start_token_resolution_witness :
  let none := {| is_encoder_decoder := true; is_decoder := Missing;
                 decoder_start_token_id := IsNone; bos_token_id := Missing;
                 decoder := Val {| decoder_bos_token_id := IsNone |} |} in
  let nested := {| is_encoder_decoder := true; is_decoder := Missing;
                   decoder_start_token_id := IsNone; bos_token_id := Missing;
                   decoder := Val {| decoder_bos_token_id := Val 2 |} |} in
  let Y := IdArr [[1; 2]; [1; 2]] in
  get_teacher_forced_logits (Toy.make none (Some pt) None 2)
    ["ab"; "b"]%string Y Toy.fresh
  = (Raise no_start_token, Toy.fresh)
  /\ resolve_decoder_start_token_id nested = Ok 2
  /\ is_ok (fst (get_teacher_forced_logits (Toy.make nested (Some pt) None 2)
                   ["ab"; "b"]%string Y Toy.fresh)) <> false.
Proof.
  intros none nested Y.
  destruct (@start_token_resolution _ _ (Toy.make none (Some pt) None 2)
              eq_refl ["ab"; "b"]%string Y Toy.fresh Toy.fresh Toy.fresh
              [[1; 2]; [1; 2]]
              {| input_ids := [[1; 2]; [2; 0]];
                 attention_mask := [[1; 1]; [1; 0]];
                 position_ids := None |}
              eq_refl eq_refl (fun ids st => eq_refl))
    as (_ & _ & Hraise).
  destruct (@start_token_resolution _ _ (Toy.make nested (Some pt) None 2)
              eq_refl ["ab"; "b"]%string Y Toy.fresh Toy.fresh Toy.fresh
              [[1; 2]; [1; 2]]
              {| input_ids := [[1; 2]; [2; 0]];
                 attention_mask := [[1; 1]; [1; 0]];
                 position_ids := None |}
              eq_refl eq_refl (fun ids st => eq_refl))
    as (Hres & Hiff & _).
  split; [apply Hraise; reflexivity|].
  split; [exact Hres|].
  intros Hno. apply Hiff in Hno. discriminate Hno.
Defined.

Lemma encoder_decoder_alignment_witness :
  let self := Toy.make (Toy.cfg true (Val 3)) (Some pt) None 2 in
  let Y := IdArr [[1; 2]; [1; 2]] in
  let inputs := {| input_ids := [[1; 2]; [2; 0]];
                   attention_mask := [[1; 1]; [1; 0]];
                   position_ids := None |} in
  let out := get_teacher_forced_logits self ["ab"; "b"]%string Y Toy.fresh in
  forward_calls (snd out)
  = [{| call_inputs := inputs;
        decoder_input_ids := Some [[3; 1; 2]; [3; 1; 2]];
        labels := Some [[3; 1; 2]; [3; 1; 2]] |}]
  /\ exists logits,
      fst out = Ok logits
      /\ Forall2 (fun m row => length m = length row)
                 logits [[1; 2]; [1; 2]].
Proof.
  intros self Y inputs out.
  destruct (@encoder_decoder_alignment _ _ self eq_refl
              ["ab"; "b"]%string Y Toy.fresh Toy.fresh Toy.fresh
              [[1; 2]; [1; 2]] inputs eq_refl eq_refl 3 eq_refl)
    as (_ & _ & _ & Hrun).
  destruct (Hrun (map (fun row => map Toy.scores (seq 0 (length row)))
                      [[3; 1; 2]; [3; 1; 2]])
                 (called {| call_inputs := inputs;
                            decoder_input_ids := Some [[3; 1; 2]; [3; 1; 2]];
                            labels := Some [[3; 1; 2]; [3; 1; 2]] |}
                         Toy.fresh) eq_refl)
    as (_ & Hshape).
  destruct Hshape as (logits & Hout & Hlen).
  - repeat constructor.
  - subst out. rewrite Hout. split; [reflexivity|].
    exists logits. split; [reflexivity | exact Hlen].
Defined.

Lemma decoder_only_alignment_witness :
  let self := Toy.make (Toy.cfg false Missing) (Some pt) None 2 in
  let Y := IdArr [[1; 2; 3]; [1; 2; 3]] in
  let out := get_teacher_forced_logits self ["ab"; "b"]%string Y Toy.fresh in
  exists call,
    forward_calls (snd out) = [call]
    /\ input_ids (call_inputs call) = [[1; 2; 1; 2; 3]; [0; 2; 1; 2; 3]]
    /\ attention_mask (call_inputs call)
       = [[1; 1; 1; 1; 1]; [0; 1; 1; 1; 1]]
    /\ fst out
       = Ok [[Toy.scores 1; Toy.scores 2; Toy.scores 3];
             [Toy.scores 1; Toy.scores 2; Toy.scores 3]].
Proof.
  intros self Y out.
  destruct (@decoder_only_alignment _ _ self eq_refl
              ltac:(discriminate) ["ab"; "b"]%string Y
              Toy.fresh Toy.fresh Toy.fresh [[1; 2; 3]; [1; 2; 3]]
              {| input_ids := [[1; 2]; [0; 2]];
                 attention_mask := [[1; 1]; [0; 1]];
                 position_ids := None |}
              eq_refl eq_refl eq_refl eq_refl)
    as (call & Hcall & Hids & Hmask & Hlogits).
  exists call. split; [exact Hcall|].
  split; [exact Hids|]. split; [exact Hmask|].
  vm_compute in Hcall. injection Hcall as <-.
  destruct (Hlogits _ eq_refl) as [Hout _]. exact Hout.
Defined.

(** C5 fails as stated for a source without any token column: the model
    sees only the three target tokens, there is no position to look back
    to, and the window [[-4 : -1]] holds two positions, not three. *)
Lemma decoder_only_window_short :
  let self := Toy.make (Toy.cfg false Missing) (Some pt) None 2 in
  let Y := IdArr [[1; 2; 3]] in
  let out := get_teacher_forced_logits self [""%string] Y Toy.fresh in
  (exists call,
      forward_calls (snd out) = [call]
      /\ input_ids (call_inputs call) = [[1; 2; 3]])
  /\ exists logits,
      fst out = Ok logits
      /\ map (@length _) logits = [2%nat]
      /\ map (@length _) logits <> [3%nat].
Proof.
  vm_compute. split.
  - eexists. split; reflexivity.
  - eexists. split; [reflexivity|]. split; [reflexivity|discriminate].
Qed.

(** ** Log odds of the target tokens (get_logodds) *)

Lemma nth_error_combine {A B} (a : list A) (b : list B) n :
  nth_error (combine a b) n =
  match nth_error a n, nth_error b n with
  | Some x, Some y => Some (x, y)
  | _, _ => None
  end.
Proof.
  revert b n; induction a as [|x a IH]; intros [|y b] [|n]; simpl;
    try reflexivity.
  - destruct (nth_error a n); reflexivity.
  - apply IH.
Qed.

Lemma all_some_map_Some {A} (l : list A) : Np.all_some (map Some l) = Some l.
Proof.
  induction l as [|x l IH]; simpl; [reflexivity|]. rewrite IH. reflexivity.
Qed.

Lemma index_of_nat {A} (l : list A) (i : nat) :
  (i < length l)%nat -> Py.index l (Z.of_nat i) = nth_error l i.
Proof.
  intros H. unfold Py.index.
  replace (Z.of_nat i <? 0) with false by (symmetry; apply Z.ltb_ge; lia).
  replace (0 <=? Z.of_nat i) with true by (symmetry; apply Z.leb_le; lia).
  replace (Z.of_nat i <? Z.of_nat (length l)) with true
    by (symmetry; apply Z.ltb_lt; lia).
  simpl. rewrite Nat2Z.id. reflexivity.
Qed.

Lemma index_in_range {A} (l : list A) (i : Z) :
  0 <= i < Z.of_nat (length l) -> Py.index l i = nth_error l (Z.to_nat i).
Proof.
  intros H. rewrite <- (Z2Nat.id i) at 1 by lia.
  apply index_of_nat. lia.
Qed.

Lemma range_length n : length (Py.range n) = n.
Proof. unfold Py.range. rewrite length_map, length_seq. reflexivity. Qed.

Section LogOdds.

Variables (Input F : Type).
Context {float64 : Float64 F}.
Variable self : TeacherForcing Input F.

Lemma calc_logodds_length (scores : list F) :
  length (calc_logodds scores) = length scores.
Proof. unfold calc_logodds. rewrite !length_map. reflexivity. Qed.

Lemma calc_logodds_at (scores : list F) (id : Z) :
  0 <= id < Z.of_nat (length scores) ->
  Py.index (calc_logodds scores) id = Some (logodds_at scores id).
Proof.
  intros H. rewrite index_in_range by (rewrite calc_logodds_length; lia).
  unfold calc_logodds, logodds_at, logit.
  rewrite !nth_error_map.
  rewrite (nth_error_nth' scores fone) by lia. reflexivity.
Qed.

(** The rows picked from one batch item. *)
Lemma take_target_columns (V : nat) (m : list (list F)) (ids : list Z) :
  length ids = length m ->
  Forall (fun v => length v = V) m ->
  Forall (fun id => 0 <= id < Z.of_nat V) ids ->
  Np.all_some
    (map (Np.at2 (map (@calc_logodds F _) m)) (combine (Py.range (length m)) ids))
  = Some (map (fun rc => logodds_at (fst rc) (snd rc)) (combine m ids)).
Proof.
  intros Hlen Hm Hids.
  rewrite <- all_some_map_Some. f_equal.
  apply nth_error_ext. intros n.
  rewrite !nth_error_map, !nth_error_combine.
  unfold Py.range. rewrite nth_error_map, nth_error_seq.
  destruct (n <? length m)%nat eqn:Hn.
  - apply Nat.ltb_lt in Hn.
    destruct (nth_error m n) as [row|] eqn:Hrow;
      [|apply nth_error_None in Hrow; lia].
    destruct (nth_error ids n) as [id|] eqn:Hid;
      [|apply nth_error_None in Hid; lia].
    simpl. f_equal. unfold Np.at2. simpl.
    rewrite index_of_nat by (rewrite length_map; lia).
    rewrite nth_error_map, Hrow. simpl.
    apply calc_logodds_at.
    rewrite Forall_forall in Hm, Hids.
    rewrite (Hm row) by (eapply nth_error_In; eassumption).
    apply Hids. eapply nth_error_In; eassumption.
  - apply Nat.ltb_ge in Hn.
    replace (nth_error m n) with (@None (list F))
      by (symmetry; apply nth_error_None; lia).
    reflexivity.
Qed.

Lemma logodds_output_ids_state s :
  snd (logodds_output_ids self s) = s.
Proof.
  unfold logodds_output_ids. unfold_M.
  destruct (self_output s) as [[sentences|ids]|]; [| |reflexivity].
  - pose proof (get_outputs_state self (StrArr sentences) s) as E.
    destruct (get_outputs self (StrArr sentences) s) as [[ids|e] s1];
      simpl in E; subst s1; [|reflexivity].
    destruct ids; reflexivity.
  - destruct ids; reflexivity.
Qed.

(** C2.  Let the logits have shape batch x position x vocabulary with at
    least one batch row and one position, one position per id of the
    cached target, every id a column of the vocabulary.  Then
    [get_logodds] returns, for each batch row and each position, the log
    odds [log (p / (1 - p))] of the softmax probability
    [p = exp(score) / sum(exp(scores))] of that position's target id and
    nothing else: a matrix of shape batch x target length.  The state is
    left as it was. *)
Theorem get_logodds_target_columns (B P V : nat) logits ids s :
  fst (logodds_output_ids self s) = Ok ids ->
  has_shape B P V logits ->
  (1 <= B)%nat -> (1 <= P)%nat ->
  length ids = P ->
  Forall (fun id => 0 <= id < Z.of_nat V) ids ->
  let out :=
    map (fun m => map (fun rc => logodds_at (fst rc) (snd rc))
                      (combine m ids)) logits in
  get_logodds self logits s = (Ok out, s)
  /\ length out = B
  /\ Forall (fun row => length row = length ids) out.
Proof.
  intros Hids [HB Hshape] HB1 HP1 Hlen Hrange out.
  assert (Hout : get_logodds self logits s = (Ok out, s)).
  { unfold get_logodds. unfold bind at 1.
    pose proof (logodds_output_ids_state s) as Hs.
    destruct (logodds_output_ids self s) as [r s1]. simpl in Hids, Hs.
    subst r s1.
    destruct logits as [|m0 rest]; [simpl in HB; lia|].
    pose proof (Forall_inv Hshape) as [Hm0 _].
    destruct m0 as [|v0 m0']; [simpl in Hm0; lia|].
    unfold lift, logodds_for_output_ids, apply_along_axis.
    unfold Np.take_pairs, Np.shape1.
    set (logodds := map (map (@calc_logodds F _)) ((v0 :: m0') :: rest)).
    assert (HP : length (hd [] logodds) = P)
      by (subst logodds; simpl; rewrite length_map; exact Hm0).
    rewrite HP, Nat2Z.id.
    unfold Np.broadcast. rewrite range_length, Hlen, Nat.eqb_refl.
    subst logodds. rewrite map_map.
    rewrite (map_ext_in _
               (fun m => Some (map (fun rc => logodds_at (fst rc) (snd rc))
                                   (combine m ids)))).
    - rewrite <- (map_map _ Some), all_some_map_Some. reflexivity.
    - intros m Hin. rewrite Forall_forall in Hshape.
      destruct (Hshape m Hin) as [HmP HmV].
      rewrite <- HmP. apply take_target_columns with (V := V); auto.
      lia. }
  split; [exact Hout|]. subst out. split.
  - rewrite length_map. exact HB.
  - apply Forall_forall. intros row Hin.
    apply in_map_iff in Hin. destruct Hin as (m & <- & Hm).
    rewrite Forall_forall in Hshape. destruct (Hshape m Hm) as [HmP _].
    rewrite length_map, length_combine. lia.
Qed.

(** The bounds on the batch and on the positions are what numpy asks for:
    with no batch row, or no position in the first batch row, there is no
    slice to apply the softmax to and the call raises. *)
Lemma get_logodds_no_slice (logits : list (list (list F))) ids s :
  fst (logodds_output_ids self s) = Ok ids ->
  logits = [] \/ hd [] logits = [] ->
  fst (get_logodds self logits s)
  = Raise (ValueError
             "Cannot apply_along_axis when any iteration dimensions are 0").
Proof.
  intros Hids Hempty. unfold get_logodds, bind.
  destruct (logodds_output_ids self s) as [r s1]. simpl in Hids. subst r.
  unfold lift, logodds_for_output_ids, apply_along_axis.
  destruct logits as [|m rest]; [reflexivity|].
  destruct Hempty as [H|H]; [discriminate|]. simpl in H. subst m.
  reflexivity.
Qed.

End LogOdds.

Lemma get_logodds_target_columns_witness :
  let self := Toy.make (Toy.cfg false Missing) (Some pt) None 2 in
  let s := with_output (IdArr [[2; 0]]) Toy.fresh in
  let logits := [[Toy.scores 0; Toy.scores 1]; [Toy.scores 5; Toy.scores 6]] in
  get_logodds self logits s
  = (Ok [[logodds_at (Toy.scores 0) 2; logodds_at (Toy.scores 1) 0];
         [logodds_at (Toy.scores 5) 2; logodds_at (Toy.scores 6) 0]], s).
Proof.
  intros self s logits.
  apply (@get_logodds_target_columns _ _ _ self 2 2 4 logits [2; 0] s).
  - reflexivity.
  - split; [reflexivity|]. repeat constructor.
  - lia.
  - lia.
  - reflexivity.
  - repeat constructor; lia.
Defined.

(** ** The batch driver (__call__) *)

Lemma batch_count_lt (n len i : nat) :
  (1 <= n)%nat -> (i * n < len)%nat <-> (i < batch_count n len)%nat.
Proof.
  intros Hn. unfold batch_count. split; intros H.
  - apply Nat.lt_le_trans with (m := ((i * n + n) / n)%nat).
    + replace (i * n + n)%nat with ((i + 1) * n)%nat by lia.
      rewrite Nat.div_mul by lia. lia.
    + apply Nat.Div0.div_le_mono. lia.
  - destruct (Nat.lt_ge_cases (i * n) len) as [|Hge]; [assumption|].
    exfalso.
    assert ((len + n - 1) / n <= i)%nat; [|lia].
    destruct (Nat.eq_dec len 0) as [->|Hpos].
    + replace (0 + n - 1)%nat with (n - 1)%nat by lia.
      rewrite Nat.div_small by lia. lia.
    + apply Nat.lt_succ_r. apply Nat.Div0.div_lt_upper_bound. nia.
Qed.

Lemma batch_count_le (n len : nat) :
  (1 <= n)%nat -> (batch_count n len <= len)%nat.
Proof.
  intros Hn. destruct (Nat.eq_dec (batch_count n len) 0) as [->|Hc]; [lia|].
  assert (H : (batch_count n len - 1 < batch_count n len)%nat) by lia.
  apply batch_count_lt in H; [|assumption]. nia.
Qed.

Lemma slice_batch {A} (n i : nat) (l : list A) :
  (1 <= n)%nat ->
  Py.slice (Some (Z.of_nat (i * n))) (Some (Z.of_nat (i * n) + Z.of_nat n)) l
  = batch_of n i l.
Proof.
  intros Hn. unfold Py.slice, Py.clamp, batch_of.
  replace (Z.of_nat (i * n) <? 0) with false
    by (symmetry; apply Z.ltb_ge; lia).
  replace (Z.of_nat (i * n) + Z.of_nat n <? 0) with false
    by (symmetry; apply Z.ltb_ge; lia).
  destruct (Nat.le_gt_cases (i * n) (length l)) as [Hle|Hgt].
  - replace (Z.to_nat (Z.min (Z.of_nat (i * n)) (Z.of_nat (length l))))
      with (i * n)%nat by lia.
    destruct (Nat.le_gt_cases (i * n + n) (length l)) as [Hin|Hout].
    + f_equal. lia.
    + rewrite !firstn_all2; [reflexivity| |]; rewrite length_skipn; lia.
  - rewrite (skipn_all2 l) by lia.
    rewrite (skipn_all2 (n := i * n) l) by lia.
    rewrite !firstn_nil. reflexivity.
Qed.

Lemma rows_batch (n i : nat) (Y : ndarray) :
  (1 <= n)%nat ->
  rows (Some (Z.of_nat (i * n))) (Some (Z.of_nat (i * n) + Z.of_nat n)) Y
  = nd_batch_of n i Y.
Proof.
  intros Hn. destruct Y; simpl; rewrite slice_batch by assumption;
    reflexivity.
Qed.

Lemma batch_of_length {A} (n i : nat) (l : list A) :
  length (batch_of n i l) = Nat.min n (length l - i * n).
Proof. unfold batch_of. rewrite length_firstn, length_skipn. reflexivity. Qed.

(** The batches, put end to end, are the array they were cut from. *)
Lemma concat_batches {A} (n : nat) (l : list A) :
  (1 <= n)%nat ->
  forall k i,
    (i + k = batch_count n (length l))%nat ->
    concat (map (fun j => batch_of n j l) (seq i k)) = skipn (i * n) l.
Proof.
  intros Hn. induction k as [|k IH]; intros i Hik; simpl.
  - symmetry. apply skipn_all2.
    destruct (Nat.le_gt_cases (length l) (i * n)) as [|Hlt]; [assumption|].
    apply batch_count_lt in Hlt; [lia|assumption].
  - rewrite IH by lia. unfold batch_of.
    replace (S i * n)%nat with (n + i * n)%nat by lia.
    rewrite <- skipn_skipn. apply firstn_skipn.
Qed.

Lemma shape1_app {A} (a b : list (list A)) :
  a <> [] -> Np.shape1 (a ++ b) = Np.shape1 a.
Proof. destruct a; [congruence|reflexivity]. Qed.

Lemma scored_rows_nonempty {A I} (w : Z) (outs : list (list (list A)))
    (bs : list (list I * ndarray)) :
  Forall2 (fun o b => length o = length (fst b)) outs bs ->
  Forall (fun b => (1 <= length (fst b))%nat) bs ->
  Forall (fun o => Np.shape1 o = w) outs ->
  Forall (fun o => o <> [] /\ Np.shape1 o = w) outs.
Proof.
  induction 1 as [|o b outs bs Hob _ IH]; intros Hbs Hw; [constructor|].
  apply Forall_cons_iff in Hbs, Hw. destruct Hbs as [Hb Hbs], Hw as [Hw1 Hw].
  constructor; [|apply IH; assumption].
  split; [|assumption]. destruct o; [simpl in Hob; lia|discriminate].
Qed.

Lemma scored_rows_length {A I} (outs : list (list (list A)))
    (bs : list (list I * ndarray)) :
  Forall2 (fun o b => length o = length (fst b)) outs bs ->
  length (concat outs) = length (concat (map fst bs)).
Proof.
  induction 1 as [|o b outs bs Hob _ IH]; simpl; [reflexivity|].
  rewrite !length_app. congruence.
Qed.

Section Driver.

Variables (Input F : Type).
Context {float64 : Float64 F}.
Variable self : TeacherForcing Input F.
Variables (X : list Input) (Y : ndarray).

(** The batch size is a positive integer [n]. *)
Variable n : nat.
Hypothesis batch_size_n : batch_size self = Z.of_nat n.
Hypothesis batch_size_pos : (1 <= n)%nat.

(** The loop from batch [i] on, [k] batches to go, all of them scored
    without error, with rows of one width [w]. *)
Lemma call_loop_batches (w : Z) :
  forall k i acc s outs fuel,
    (i + k = batch_count n (length X))%nat ->
    (k <= fuel)%nat ->
    (forall o, acc = Some o -> o <> [] /\ Np.shape1 o = w) ->
    fst (run_batches self (batches_from n X Y i k) s) = map Ok outs ->
    Forall (fun o => o <> [] /\ Np.shape1 o = w) outs ->
    call_loop self fuel X Y (Z.of_nat (i * n)) acc s
    = Some (Ok (join acc outs),
            snd (run_batches self (batches_from n X Y i k) s)).
Proof.
  pose proof batch_size_pos as Hn.
  induction k as [|k IH]; intros i acc s outs fuel Hik Hfuel Hacc Hrun Houts.
  - assert (Hdone : (Z.of_nat (i * n) <? Z.of_nat (length X)) = false).
    { apply Z.ltb_ge. apply inj_le.
      destruct (Nat.le_gt_cases (length X) (i * n)) as [|Hlt];
        [assumption|].
      apply batch_count_lt in Hlt; [lia|assumption]. }
    destruct outs; [|discriminate].
    destruct fuel; simpl; rewrite Hdone; destruct acc; simpl;
      rewrite ?app_nil_r; reflexivity.
  - assert (Hmore : (Z.of_nat (i * n) <? Z.of_nat (length X)) = true).
    { apply Z.ltb_lt. apply inj_lt. apply batch_count_lt; [assumption|].
      lia. }
    destruct fuel as [|fuel]; [lia|].
    simpl call_loop. rewrite Hmore.
    rewrite batch_size_n, slice_batch, rows_batch by assumption.
    unfold batches_from in *. simpl in Hrun |- *.
    destruct (batch_logodds self (batch_of n i X) (nd_batch_of n i Y) s)
      as [r s'] eqn:Hb.
    destruct outs as [|o1 outs]; [discriminate|].
    simpl in Hrun. injection Hrun as -> Hrest.
    apply Forall_cons_iff in Houts. destruct Houts as [[Ho1 Hw1] Houts'].
    replace (Z.of_nat (i * n) + Z.of_nat n) with (Z.of_nat (S i * n))
      by lia.
    destruct acc as [o|].
    + destruct (Hacc o eq_refl) as [Ho Hw].
      unfold Np.concatenate. rewrite Hw, Hw1, Z.eqb_refl.
      rewrite (IH (S i) (Some (o ++ o1)) s' outs fuel); try lia; auto.
      * simpl. rewrite app_assoc. reflexivity.
      * intros o' E. injection E as <-. split.
        -- destruct o; [congruence|discriminate].
        -- rewrite shape1_app by assumption. assumption.
    + rewrite (IH (S i) (Some o1) s' outs fuel); try lia; auto.
      intros o' E. injection E as <-. auto.
Qed.

(** C1, as the code has it.  Let [X] be non-empty, [Y] of the same
    length, the batch size at least 1, and let every batch be scored
    without error, with one row per input row and rows of one width.
    Then [__call__] returns, with fuel for one pass per row at most, the
    scores of the batches concatenated in input order, an array with
    [len(X)] rows.  The batches are consecutive, of at most [batch_size]
    rows and never empty, row-aligned between [X] and [Y], and cover
    [X]. *)
Theorem call_concatenates_batches s0 s1 outs (w : Z) :
  X <> [] ->
  len Y = Z.of_nat (length X) ->
  update_output_names self (rows None (Some 1) Y) s0 = (Ok tt, s1) ->
  fst (run_batches self (batches n X Y) s1) = map Ok outs ->
  Forall2 (fun o b => length o = length (fst b)) outs (batches n X Y) ->
  Forall (fun o => Np.shape1 o = w) outs ->
  forall fuel,
    (length X <= fuel)%nat ->
    __call__ self fuel X Y s0
    = Some (Ok (Some (concat outs)),
            snd (run_batches self (batches n X Y) s1))
    /\ length (concat outs) = length X
    /\ concat (map fst (batches n X Y)) = X
    /\ Forall (fun b => (1 <= length (fst b) <= n)%nat
                        /\ len (snd b) = Z.of_nat (length (fst b)))
              (batches n X Y).
Proof.
  intros HX HY Hupd Hrun Hrows Hw fuel Hfuel.
  pose proof batch_size_pos as Hn.
  assert (Hbatches :
            Forall (fun b => (1 <= length (fst b) <= n)%nat
                             /\ len (snd b) = Z.of_nat (length (fst b)))
                   (batches n X Y)).
  { unfold batches, batches_from. apply Forall_forall. intros b Hb.
    apply in_map_iff in Hb. destruct Hb as (i & <- & Hi).
    apply in_seq in Hi. simpl.
    assert (i * n < length X)%nat by (apply batch_count_lt; lia).
    rewrite batch_of_length. split; [lia|].
    destruct Y as [l|m]; simpl in *; rewrite batch_of_length; lia. }
  assert (Hcover : concat (map fst (batches n X Y)) = X).
  { unfold batches, batches_from. rewrite map_map. simpl.
    rewrite (concat_batches X Hn (batch_count n (length X)) 0)
      by reflexivity.
    reflexivity. }
  assert (Hnonempty : Forall (fun o => o <> [] /\ Np.shape1 o = w) outs).
  { eapply scored_rows_nonempty; [exact Hrows| |exact Hw].
    eapply Forall_impl; [|exact Hbatches]. simpl. intros b Hb. lia. }
  assert (Hlen : length (concat outs) = length X).
  { rewrite (scored_rows_length Hrows), Hcover. reflexivity. }
  split; [|auto].
  unfold __call__. rewrite Hupd.
  change 0 with (Z.of_nat (0 * n)).
  rewrite call_loop_batches
    with (w := w) (k := batch_count n (length X)) (i := 0%nat)
         (outs := outs); auto.
  - unfold join. destruct outs; [|reflexivity].
    exfalso. simpl in Hlen. destruct X; [congruence|discriminate].
  - pose proof (batch_count_le (length X) Hn). lia.
  - discriminate.
Qed.

End Driver.

Lemma call_concatenates_batches_witness :
  let self := Toy.make (Toy.cfg false Missing) (Some pt) None 2 in
  let X := ["ab"; "b"; "abc"]%string in
  let Y := IdArr [[1; 2]; [1; 2]; [1; 2]] in
  exists out s',
    __call__ self 3 X Y Toy.fresh = Some (Ok (Some out), s')
    /\ length out = 3%nat.
Proof.
  intros self X Y.
  pose (s1 := snd (update_output_names self (rows None (Some 1) Y) Toy.fresh)).
  pose (outs := map (value_or [])
                    (fst (run_batches self (batches 2 X Y) s1))).
  destruct (@call_concatenates_batches _ _ _ self X Y 2%nat eq_refl
              ltac:(lia) Toy.fresh s1 outs 2) with (fuel := 3%nat)
    as (Hcall & Hlen & _).
  - discriminate.
  - reflexivity.
  - reflexivity.
  - vm_compute. reflexivity.
  - vm_compute. repeat constructor.
  - vm_compute. repeat constructor.
  - simpl. lia.
  - eexists. eexists. split; [exact Hcall | exact Hlen].
Defined.

(** C1 fails as stated for empty arrays.  A first call raises, because
    there is no first row of [Y] to name the output tokens from; it leaves
    the empty target in the cache, and the next call returns Python's
    [None], not an array with 0 rows. *)
Lemma call_on_empty_input :
  let self := Toy.make (Toy.cfg false Missing) (Some pt) None 2 in
  let first := __call__ self 3 [] (IdArr []) Toy.fresh in
  exists s1,
    first = Some (Raise (IndexError "index 0 is out of bounds for axis 0"), s1)
    /\ __call__ self 3 [] (IdArr []) s1 = Some (Ok None, s1)
    /\ len (IdArr []) = Z.of_nat (@length string []).
Proof.
  vm_compute. eexists. split; [reflexivity|]. split; reflexivity.
Qed.

(** ** The columns come from the first row of Y *)

Section FirstRow.

Variables (Input F : Type).
Context {float64 : Float64 F}.
Variable self : TeacherForcing Input F.

Lemma logodds_output_ids_cached T s :
  self_output s = Some T ->
  logodds_output_ids self s = target_ids self T s.
Proof.
  intros H. unfold logodds_output_ids, target_ids.
  unfold bind at 1. unfold gets at 1. rewrite H.
  destruct T; reflexivity.
Qed.

Lemma get_logodds_cached T logits s :
  self_output s = Some T ->
  get_logodds self logits s = get_logodds_for self T logits s.
Proof.
  intros H. unfold get_logodds, get_logodds_for, bind.
  rewrite logodds_output_ids_cached with (T := T) by assumption.
  reflexivity.
Qed.

Lemma batch_logodds_cached T X_batch Y_batch s :
  self_output s = Some T ->
  batch_logodds self X_batch Y_batch s
  = (logits <- get_teacher_forced_logits self X_batch Y_batch ;;
     get_logodds_for self T logits) s.
Proof.
  intros H. unfold batch_logodds, bind.
  pose proof (keeps_get_teacher_forced_logits self X_batch Y_batch s) as K.
  destruct (get_teacher_forced_logits self X_batch Y_batch s)
    as [[logits|e] s']; [|reflexivity].
  simpl in K. apply get_logodds_cached. congruence.
Qed.

Lemma call_loop_cached T X Y :
  forall fuel start acc s,
    self_output s = Some T ->
    call_loop self fuel X Y start acc s
    = call_loop_for self T fuel X Y start acc s.
Proof.
  induction fuel as [|fuel IH]; intros start acc s H; simpl;
    [reflexivity|].
  destruct (start <? Z.of_nat (length X)); [|reflexivity].
  rewrite <- batch_logodds_cached by assumption.
  pose proof (keeps_batch_logodds self
                (Py.slice (Some start) (Some (start + batch_size self)) X)
                (rows (Some start) (Some (start + batch_size self)) Y) s)
    as K.
  destruct (batch_logodds self _ _ s) as [[logodds|e] s'];
    [|reflexivity].
  simpl in K. assert (H' : self_output s' = Some T) by congruence.
  destruct acc as [o|]; [|apply IH; assumption].
  destruct (Np.concatenate o logodds); [apply IH; assumption|reflexivity].
Qed.

(** C10.  [__call__(X, Y)] is the driver that scores every batch at the
    columns of one target given outright, [Y[:1]]: the first row of [Y]
    and nothing else of it.  For a matrix of target ids these columns are
    the ids of the first row, whatever the rows after it. *)
Theorem call_extracts_first_row_columns fuel X Y s0 :
  __call__ self fuel X Y s0
  = call_with_target self (rows None (Some 1) Y) fuel X Y s0
  /\ rows None (Some 1) Y = first_row Y
  /\ forall row0 rest s,
      Y = IdArr (row0 :: rest) ->
      target_ids self (rows None (Some 1) Y) s = (Ok row0, s).
Proof.
  split; [|split].
  - unfold __call__, call_with_target.
    destruct (cache_holds_target self (rows None (Some 1) Y) s0)
      as (o & Ho & Eo).
    apply array_equal_spec in Eo. subst o.
    destruct (update_output_names self _ s0) as [[[]|e] s1];
      [|reflexivity].
    apply call_loop_cached. exact Ho.
  - destruct Y; simpl; rewrite slice_first; reflexivity.
  - intros row0 rest s ->. simpl. rewrite slice_first. reflexivity.
Qed.

End FirstRow.

(** * Further properties of the module *)

(** ** get_inputs: what it touches *)

Section GetInputsFrame.

Variables (Input F : Type).
Variable self : TeacherForcing Input F.

(** The state [get_inputs] leaves, by the place where it stops. *)
Lemma get_inputs_state X padding_side s :
  snd (get_inputs self X padding_side s) =
  match (if model_agnostic self then inner_model self X
         else Ok (tolist self X)) with
  | Raise _ => s
  | Ok sentences =>
      match similarity_tokenizer self padding_side sentences with
      | Raise _ => snd (set_padding_side padding_side s)
      | Ok _ => snd (set_padding_side "right" s)
      end
  end.
Proof.
  unfold get_inputs. unfold_M.
  destruct (model_agnostic self).
  - destruct (inner_model self X) as [sentences|e]; [|reflexivity]. simpl.
    destruct (similarity_tokenizer self padding_side sentences); reflexivity.
  - simpl.
    destruct (similarity_tokenizer self padding_side (tolist self X));
      reflexivity.
Qed.

Lemma get_inputs_ok_state X padding_side s inputs s' :
  get_inputs self X padding_side s = (Ok inputs, s') ->
  s' = snd (set_padding_side "right" s).
Proof.
  intros H. pose proof (get_inputs_state X padding_side s) as Hst.
  rewrite H in Hst. simpl fst in Hst. simpl snd in Hst.
  revert H Hst. unfold get_inputs. unfold_M.
  destruct (model_agnostic self).
  - destruct (inner_model self X) as [sentences|e]; [|discriminate]. simpl.
    destruct (similarity_tokenizer self padding_side sentences);
      [|discriminate].
    intros _ ->. reflexivity.
  - simpl.
    destruct (similarity_tokenizer self padding_side (tolist self X));
      [|discriminate].
    intros _ ->. reflexivity.
Qed.

(** X1.  [get_inputs] changes nothing but the padding side of the
    tokenizer: the cached target, the output names, what was printed and
    the record of forward passes are as before, whether it returns or
    raises. *)
Theorem get_inputs_only_touches_padding_side X padding_side s :
  but_padding_side (snd (get_inputs self X padding_side s))
  = but_padding_side s.
Proof.
  rewrite get_inputs_state.
  destruct (if model_agnostic self then inner_model self X
            else Ok (tolist self X)) as [sentences|e]; [|reflexivity].
  destruct (similarity_tokenizer self padding_side sentences); reflexivity.
Qed.

(** X2.  In the model agnostic case the wrapped model runs before the
    tokenizer is touched: when it raises, [get_inputs] raises the same
    error and the state, padding side included, is exactly as before. *)
Theorem get_inputs_inner_model_raises X padding_side s e :
  model_agnostic self = true ->
  inner_model self X = Raise e ->
  get_inputs self X padding_side s = (Raise e, s).
Proof.
  intros Hag Hraise. unfold get_inputs. unfold_M.
  rewrite Hag, Hraise. reflexivity.
Qed.

(** The tokenizer is asked with the padding side of the call, not with
    the one it held before. *)
Lemma get_inputs_uses_requested_side X padding_side s inputs s' :
  get_inputs self X padding_side s = (Ok inputs, s') ->
  exists sentences,
    (if model_agnostic self then inner_model self X
     else Ok (tolist self X)) = Ok sentences
    /\ similarity_tokenizer self padding_side sentences = Ok inputs.
Proof.
  unfold get_inputs. unfold_M.
  destruct (model_agnostic self).
  - destruct (inner_model self X) as [sentences|e]; [|discriminate]. simpl.
    destruct (similarity_tokenizer self padding_side sentences) as [i|]
      eqn:Ht; [|discriminate].
    intros E; injection E as <- _. eauto.
  - simpl.
    destruct (similarity_tokenizer self padding_side (tolist self X))
      as [i|] eqn:Ht; [|discriminate].
    intros E; injection E as <- _. eauto.
Qed.

End GetInputsFrame.

(** ** model_inference: outcomes *)

Lemma cat_last_mismatch (a b : list (list Z)) :
  length a <> length b -> Np.cat_last a b = None.
Proof.
  intros H. destruct (Np.cat_last a b) eqn:E; [|reflexivity].
  apply cat_last_length in E. contradiction.
Qed.

Ltac model_inference_cases self :=
  unfold model_inference;
  destruct (similarity_model_type self) as [[|]|];
  destruct (device self);
  destruct (is_encoder_decoder (config self));
  unfold bind, lift, ret, logits_of, raise;
  try match goal with
    | |- context [decoder_only_inputs ?e ?i ?o] =>
        destruct (decoder_only_inputs e i o)
    end;
  rewrite ?forward_on_device_run, ?forward_run.

Section Outcomes.

Variables (Input F : Type).
Variable self : TeacherForcing Input F.

(** What a call that returns has done. *)
Lemma model_inference_ok_called inputs output_ids s logits s' :
  model_inference self inputs output_ids s = (Ok logits, s') ->
  similarity_model_type self <> None
  /\ exists call,
      similarity_model self call = Ok logits
      /\ s' = called call s
      /\ (is_encoder_decoder (config self) = true ->
          call = {| call_inputs := inputs;
                    decoder_input_ids := Some output_ids;
                    labels := Some output_ids |}).
Proof.
  model_inference_cases self;
    repeat match goal with
      | |- context [similarity_model self ?c] =>
          destruct (similarity_model self c) as [?|[]] eqn:?
      end;
    simpl; intros E; try discriminate; injection E as <- <-;
    (split; [discriminate|]);
    eexists; (split; [eassumption|]);
    (split; [reflexivity|]); intros; try reflexivity; discriminate.
Qed.

(** X3.  [model_inference] returns only what a forward pass returned:
    when it returns logits, exactly one forward pass took place, the
    logits are those of that pass, untouched, and nothing else of the
    state changed (nothing was printed).  In particular an object without
    a backend never returns. *)
Theorem model_inference_returns_forward_logits inputs output_ids s logits s' :
  model_inference self inputs output_ids s = (Ok logits, s') ->
  similarity_model_type self <> None
  /\ exists call,
      similarity_model self call = Ok logits
      /\ s' = called call s
      /\ (is_encoder_decoder (config self) = true ->
          call = {| call_inputs := inputs;
                    decoder_input_ids := Some output_ids;
                    labels := Some output_ids |}).
Proof. apply model_inference_ok_called. Qed.


(** X5.  For a decoder-only model, a target batch whose number of rows
    differs from that of the source ids or of the attention mask stops the
    call before any forward pass: it raises and leaves the state as it
    was. *)
Theorem model_inference_row_mismatch inputs output_ids s :
  is_encoder_decoder (config self) = false ->
  length (input_ids inputs) <> length output_ids
  \/ length (attention_mask inputs) <> length output_ids ->
  is_ok (fst (model_inference self inputs output_ids s)) = false
  /\ snd (model_inference self inputs output_ids s) = s.
Proof.
  intros Hdec Hrows.
  assert (Hnone : forall e,
             decoder_only_inputs e inputs output_ids = Raise e).
  { intros e. unfold decoder_only_inputs.
    destruct Hrows as [H|H].
    - rewrite (cat_last_mismatch _ _ H). reflexivity.
    - destruct (Np.cat_last (input_ids inputs) output_ids); [|reflexivity].
      rewrite cat_last_mismatch; [reflexivity|].
      unfold Np.ones_like. rewrite length_map. exact H. }
  unfold model_inference. rewrite Hdec.
  destruct (similarity_model_type self) as [[|]|];
    unfold bind, lift, raise; rewrite ?Hnone; split; reflexivity.
Qed.

End Outcomes.

(** ** Position ids under left padding *)

Lemma position_ids_zeros (p : nat) (rest : list Z) :
  forall acc,
    map (fun mp : Z * Z => if fst mp =? 0 then 0 else snd mp)
        (combine (repeat 0 p ++ rest)
           (map (fun c => c - 1) (Np.cumsum_from acc (repeat 0 p ++ rest))))
    = repeat 0 p
      ++ map (fun mp : Z * Z => if fst mp =? 0 then 0 else snd mp)
           (combine rest (map (fun c => c - 1) (Np.cumsum_from acc rest))).
Proof.
  induction p as [|p IH]; intros acc; simpl; [reflexivity|].
  rewrite Z.add_0_r, IH. reflexivity.
Qed.

Lemma position_ids_ones (k : nat) :
  forall acc,
    map (fun mp : Z * Z => if fst mp =? 0 then 0 else snd mp)
        (combine (repeat 1 k)
           (map (fun c => c - 1) (Np.cumsum_from acc (repeat 1 k))))
    = map (fun i => acc + Z.of_nat i) (seq 0 k).
Proof.
  induction k as [|k IH]; intros acc; simpl; [reflexivity|].
  rewrite IH, <- seq_shift, map_map. f_equal; [lia|].
  apply map_ext. intros i. lia.
Qed.

(** X6.  Under left padding (an attention mask of [p] zeros followed by
    [k] ones, the target columns included) the position ids are 0 on the
    padding and count 0, 1, ..., k-1 over the tokens: the first real token
    gets position 0 whatever the amount of padding. *)
Theorem position_ids_left_padding (p k : nat) :
  position_ids_of (repeat 0 p ++ repeat 1 k) = repeat 0 p ++ Py.range k.
Proof.
  unfold position_ids_of, Np.cumsum.
  rewrite position_ids_zeros, position_ids_ones. reflexivity.
Qed.

(** ** get_outputs: the special tokens stripped *)

Lemma slice_strip {A} (a b : Z) (l : list A) :
  0 <= a -> 0 < b ->
  Py.slice (Some a) (Some (- b)) l
  = skipn (Z.to_nat a) (firstn (length l - Z.to_nat b) l).
Proof.
  intros Ha Hb. rewrite skipn_firstn_comm.
  unfold Py.slice, Py.clamp.
  replace (a <? 0) with false by (symmetry; apply Z.ltb_ge; lia).
  replace (- b <? 0) with true by (symmetry; apply Z.ltb_lt; lia).
  destruct (Z_le_gt_dec a (Z.of_nat (length l))) as [Hle|Hgt].
  - f_equal; [|f_equal]; lia.
  - rewrite (skipn_all2 (n := Z.to_nat a) l) by lia.
    rewrite (skipn_all2 l) by lia.
    rewrite !firstn_nil. reflexivity.
Qed.

Lemma slice_drop_prefix {A} (a : Z) (l : list A) :
  0 <= a -> Py.slice (Some a) None l = skipn (Z.to_nat a) l.
Proof.
  intros Ha. unfold Py.slice, Py.clamp.
  replace (a <? 0) with false by (symmetry; apply Z.ltb_ge; lia).
  destruct (Z_le_gt_dec a (Z.of_nat (length l))) as [Hle|Hgt].
  - replace (Z.to_nat (Z.min a (Z.of_nat (length l)))) with (Z.to_nat a)
      by lia.
    apply firstn_all2. rewrite length_skipn. lia.
  - rewrite (skipn_all2 (n := Z.to_nat a) l) by lia.
    rewrite (skipn_all2 l) by lia. apply firstn_nil.
Qed.

Section Targets.

Variables (Input F : Type).
Context {float64 : Float64 F}.
Variable self : TeacherForcing Input F.

(** X7.  For a batch of target sentences, [get_outputs] returns the ids
    of the tokenizer with the first [keep_prefix] and the last
    [keep_suffix] ids of every row removed; the two branches of the source
    (a suffix to strip or none) are one rule.  The state is untouched. *)
Theorem get_outputs_strips_special_tokens sentences s enc :
  0 <= keep_prefix self ->
  0 <= keep_suffix self ->
  similarity_tokenizer self (tokenizer_padding_side s) sentences = Ok enc ->
  input_ids enc <> [] ->
  get_outputs self (StrArr sentences) s
  = (Ok (map (fun row =>
                skipn (Z.to_nat (keep_prefix self))
                      (firstn (length row - Z.to_nat (keep_suffix self)) row))
             (input_ids enc)), s).
Proof.
  intros Hp Hs Htok Hrows. unfold get_outputs. unfold_M. rewrite Htok.
  destruct (input_ids enc) as [|row0 rest] eqn:E; [congruence|].
  destruct (keep_suffix self >? 0) eqn:Hks.
  - apply Z.gtb_lt in Hks. f_equal. f_equal.
    apply map_ext. intros row. apply slice_strip; lia.
  - assert (keep_suffix self = 0) as ->
      by (destruct (Z.gtb_spec (keep_suffix self) 0); [discriminate|lia]).
    f_equal. f_equal. apply map_ext. intros row.
    rewrite slice_drop_prefix by assumption.
    change (Z.to_nat 0) with 0%nat. rewrite Nat.sub_0_r, firstn_all.
    reflexivity.
Qed.

(** The ids [get_outputs] returns depend on the state through the padding
    side of the tokenizer only. *)
Lemma get_outputs_same_side X s1 s2 :
  tokenizer_padding_side s1 = tokenizer_padding_side s2 ->
  fst (get_outputs self X s1) = fst (get_outputs self X s2).
Proof.
  intros H. unfold get_outputs. destruct X as [sentences|ids];
    [|reflexivity].
  unfold_M. rewrite H.
  destruct (similarity_tokenizer self _ sentences) as [enc|e];
    [|reflexivity].
  destruct (input_ids enc); [reflexivity|].
  destruct (keep_suffix self >? 0); reflexivity.
Qed.

(** [get_output_names] in one step: the names of the first row of what
    [get_outputs] returns, and the counter moved. *)
Lemma get_output_names_run output s :
  get_output_names self output s
  = (match fst (get_outputs self output s) with
     | Ok (row0 :: _) =>
         Ok (map (fun x => str_strip self (tokenizer_decode self [x])) row0)
     | Ok [] => Raise (IndexError "index 0 is out of bounds for axis 0")
     | Raise e => Raise e
     end, snd (tick_names_computed s)).
Proof.
  unfold get_output_names. unfold bind at 1.
  change (tick_names_computed s) with (Ok tt, snd (tick_names_computed s)).
  cbv iota. unfold bind.
  pose proof (get_outputs_state self output (snd (tick_names_computed s)))
    as Hst.
  rewrite (get_outputs_same_side output s (snd (tick_names_computed s)))
    by reflexivity.
  destruct (get_outputs self output (snd (tick_names_computed s)))
    as [[ids|e] s1]; simpl in Hst; subst s1; [|reflexivity].
  destruct ids; reflexivity.
Qed.

(** X8.  The output names label the columns scored: after
    [update_output_names] has recomputed the names of a target, there is
    one name per id that [get_logodds] extracts. *)
Theorem output_names_match_columns T s s' :
  (forall o, self_output s = Some o -> array_equal o T = false) ->
  update_output_names self T s = (Ok tt, s') ->
  exists names ids,
    self_output_names s' = Some names
    /\ fst (logodds_output_ids self s') = Ok ids
    /\ length names = length ids.
Proof.
  intros Hmiss.
  rewrite update_output_names_miss
    by (destruct (self_output s) as [o|]; [rewrite (Hmiss o)|]; reflexivity).
  rewrite get_output_names_run.
  destruct (fst (get_outputs self T (with_output T s))) as [[|row0 rest]|e]
    eqn:Hout; try discriminate.
  unfold set_output_names, modify. intros E. injection E as <-.
  eexists. exists row0. split; [reflexivity|]. split; [|apply length_map].
  unfold logodds_output_ids, bind, gets. cbn [self_output].
  destruct T as [sentences|m].
  - match goal with
    | |- context [get_outputs self (StrArr sentences) ?st] =>
        pose proof (get_outputs_same_side (StrArr sentences) st
                      (with_output (StrArr sentences) s) eq_refl) as Hsame;
        destruct (get_outputs self (StrArr sentences) st) as [r st']
    end.
    rewrite Hout in Hsame. simpl in Hsame. subst r. reflexivity.
  - simpl in Hout. injection Hout as ->. reflexivity.
Qed.

(** X9.  The new target is cached before its names are computed.  When
    that computation raises, the cache already holds the new target while
    the names are still those of the old one, and a second call with the
    same target returns without computing them. *)
Theorem failed_update_is_not_retried T s e :
  (forall o, self_output s = Some o -> array_equal o T = false) ->
  fst (update_output_names self T s) = Raise e ->
  let s' := snd (update_output_names self T s) in
  self_output s' = Some T
  /\ self_output_names s' = self_output_names s
  /\ update_output_names self T s' = (Ok tt, s').
Proof.
  intros Hmiss.
  rewrite update_output_names_miss
    by (destruct (self_output s) as [o|]; [rewrite (Hmiss o)|]; reflexivity).
  pose proof (get_output_names_state self T (with_output T s)) as Hst.
  destruct (get_output_names self T (with_output T s)) as [[names|e'] s1];
    simpl in Hst; subst s1; simpl; [discriminate|].
  intros _. split; [reflexivity|]. split; [reflexivity|].
  eapply update_output_names_hit; [reflexivity|apply array_equal_refl].
Qed.

End Targets.

(** ** get_logodds at the edges of its index arrays *)

Lemma combine_repeat_r {A B} (l : list A) (x : B) :
  combine l (repeat x (length l)) = map (fun a => (a, x)) l.
Proof.
  induction l as [|a l IH]; simpl; [reflexivity|]. rewrite IH. reflexivity.
Qed.

Lemma broadcast_single (P : nat) (id : Z) :
  (1 <= P)%nat ->
  Np.broadcast (Py.range P) [id]
  = Some (combine (Py.range P) (repeat id P)).
Proof.
  intros HP. unfold Np.broadcast. rewrite range_length. simpl length.
  pose proof (combine_repeat_r (Py.range P) id) as H.
  rewrite range_length in H. rewrite H.
  destruct (Nat.eqb_spec P 1) as [->|Hne]; reflexivity.
Qed.

Lemma all_some_None_at {A} (l : list (option A)) (j : nat) :
  nth_error l j = Some None -> Np.all_some l = None.
Proof.
  revert j; induction l as [|x l IH]; intros [|j] H; simpl in *;
    try discriminate.
  - injection H as ->. reflexivity.
  - destruct x; [|reflexivity]. rewrite (IH j H). reflexivity.
Qed.

Lemma index_out_of_range {A} (l : list A) (i : Z) :
  i < - Z.of_nat (length l) \/ Z.of_nat (length l) <= i ->
  Py.index l i = None.
Proof.
  intros H. unfold Py.index.
  destruct (i <? 0) eqn:Hneg.
  - apply Z.ltb_lt in Hneg.
    replace (0 <=? i + Z.of_nat (length l)) with false
      by (symmetry; apply Z.leb_gt; lia).
    reflexivity.
  - apply Z.ltb_ge in Hneg.
    replace (i <? Z.of_nat (length l)) with false
      by (symmetry; apply Z.ltb_ge; lia).
    rewrite andb_false_r. reflexivity.
Qed.

Section LogOddsEdges.

Variables (Input F : Type).
Context {float64 : Float64 F}.
Variable self : TeacherForcing Input F.

Lemma get_logodds_state logits s : snd (get_logodds self logits s) = s.
Proof.
  unfold get_logodds, bind, lift.
  pose proof (logodds_output_ids_state self s) as Hs.
  destruct (logodds_output_ids self s) as [[ids|e] s1]; simpl in Hs;
    subst s1; reflexivity.
Qed.

(** X10.  A target of a single token is broadcast over the positions: for
    logits with [P] positions, [get_logodds] returns [P] columns, every one
    of them the log odds of that one token, not one column. *)
Theorem get_logodds_single_target_broadcast (B P V : nat) logits id s :
  fst (logodds_output_ids self s) = Ok [id] ->
  has_shape B P V logits ->
  (1 <= B)%nat -> (1 <= P)%nat ->
  0 <= id < Z.of_nat V ->
  get_logodds self logits s
  = (Ok (map (fun m => map (fun scores => logodds_at scores id) m) logits), s).
Proof.
  intros Hids [HB Hshape] HB1 HP1 Hrange.
  pose proof (get_logodds_state logits s) as Hst.
  destruct (get_logodds self logits s) as [r s1] eqn:Hrun. simpl in Hst.
  subst s1. f_equal.
  unfold get_logodds, bind in Hrun.
  destruct (logodds_output_ids self s) as [r0 s1]. simpl in Hids. subst r0.
  destruct logits as [|m0 rest]; [simpl in HB; lia|].
  pose proof (Forall_inv Hshape) as [Hm0 _].
  destruct m0 as [|v0 m0']; [simpl in Hm0; lia|].
  unfold lift, logodds_for_output_ids, apply_along_axis in Hrun.
  unfold Np.take_pairs, Np.shape1 in Hrun.
  set (logodds := map (map (@calc_logodds F _)) ((v0 :: m0') :: rest)) in *.
  assert (HP : length (hd [] logodds) = P)
    by (subst logodds; simpl; rewrite length_map; exact Hm0).
  rewrite HP, Nat2Z.id, broadcast_single in Hrun by assumption.
  subst logodds. rewrite map_map in Hrun.
  rewrite (map_ext_in _
             (fun m => Some (map (fun scores => logodds_at scores id) m)))
    in Hrun.
  - rewrite <- (map_map _ Some), all_some_map_Some in Hrun.
    injection Hrun as <- _. reflexivity.
  - intros m Hin. rewrite Forall_forall in Hshape.
    destruct (Hshape m Hin) as [HmP HmV].
    rewrite <- HmP.
    rewrite (take_target_columns (V := V)); auto.
    + rewrite combine_repeat_r, map_map. reflexivity.
    + apply repeat_length.
    + apply Forall_forall. intros x Hx. apply repeat_spec in Hx.
      subst x. exact Hrange.
Qed.

(** X11.  A target id outside the vocabulary of the logits (beyond the
    last column, or below minus the number of columns) makes
    [get_logodds] raise an IndexError; no score is returned for the other
    ids and the state is untouched. *)
Theorem get_logodds_id_out_of_vocabulary (B P V : nat) logits ids s j id :
  fst (logodds_output_ids self s) = Ok ids ->
  has_shape B P V logits ->
  (1 <= B)%nat -> (1 <= P)%nat ->
  length ids = P ->
  nth_error ids j = Some id ->
  id < - Z.of_nat V \/ Z.of_nat V <= id ->
  get_logodds self logits s
  = (Raise (IndexError "index out of bounds or shape mismatch"), s).
Proof.
  intros Hids [HB Hshape] HB1 HP1 Hlen Hj Hout.
  pose proof (get_logodds_state logits s) as Hst.
  destruct (get_logodds self logits s) as [r s1] eqn:Hrun. simpl in Hst.
  subst s1. f_equal.
  unfold get_logodds, bind in Hrun.
  destruct (logodds_output_ids self s) as [r0 s1]. simpl in Hids. subst r0.
  destruct logits as [|m0 rest]; [simpl in HB; lia|].
  pose proof (Forall_inv Hshape) as [Hm0 HV0].
  destruct m0 as [|v0 m0']; [simpl in Hm0; lia|].
  unfold lift, logodds_for_output_ids, apply_along_axis in Hrun.
  unfold Np.take_pairs, Np.shape1 in Hrun.
  remember (v0 :: m0') as m0 eqn:Em0. clear Em0 v0 m0'.
  assert (HP : length (hd [] (map (map (@calc_logodds F _)) (m0 :: rest)))
               = P) by (simpl; rewrite length_map; exact Hm0).
  rewrite HP, Nat2Z.id in Hrun.
  unfold Np.broadcast in Hrun.
  rewrite range_length, Hlen, Nat.eqb_refl in Hrun.
  assert (Hj' : (j < P)%nat)
    by (rewrite <- Hlen; apply nth_error_Some; congruence).
  destruct (nth_error m0 j) as [scores|] eqn:Hrow;
    [|apply nth_error_None in Hrow; lia].
  assert (Hnone :
            Np.all_some (map (Np.at2 (map (@calc_logodds F _) m0))
                             (combine (Py.range P) ids)) = None).
  { apply all_some_None_at with (j := j).
    rewrite nth_error_map, nth_error_combine.
    unfold Py.range. rewrite nth_error_map, nth_error_seq.
    replace (j <? P)%nat with true by (symmetry; apply Nat.ltb_lt; lia).
    rewrite Hj. simpl. f_equal. unfold Np.at2. simpl.
    rewrite index_of_nat by (rewrite length_map; lia).
    rewrite nth_error_map, Hrow. simpl.
    apply index_out_of_range. rewrite calc_logodds_length.
    rewrite Forall_forall in HV0.
    rewrite (HV0 scores) by (eapply nth_error_In; eassumption).
    exact Hout. }
  simpl map in Hrun. simpl Np.all_some in Hrun. rewrite Hnone in Hrun.
  injection Hrun as <- _. reflexivity.
Qed.

End LogOddsEdges.

(** ** The batch driver: state, edges and errors *)

Section DriverState.

Variables (Input F : Type).
Context {float64 : Float64 F}.
Variable self : TeacherForcing Input F.

Lemma model_inference_keeps_padding_side inputs output_ids s :
  tokenizer_padding_side (snd (model_inference self inputs output_ids s))
  = tokenizer_padding_side s.
Proof.
  model_inference_cases self;
    repeat match goal with
      | |- context [similarity_model self ?c] =>
          destruct (similarity_model self c) as [?|[]]
      end;
    reflexivity.
Qed.

(** One batch that is scored costs one forward pass and leaves the
    tokenizer padding on the right. *)
Lemma batch_logodds_ok X_batch Y_batch s logodds s' :
  batch_logodds self X_batch Y_batch s = (Ok logodds, s') ->
  tokenizer_padding_side s' = "right"%string
  /\ exists call, forward_calls s' = forward_calls s ++ [call].
Proof.
  unfold batch_logodds. unfold bind at 1.
  destruct (get_teacher_forced_logits self X_batch Y_batch s)
    as [[logits|e] s1] eqn:Hgtfl; [|discriminate].
  intros Hlo.
  pose proof (get_logodds_state self logits s1) as Hst.
  rewrite Hlo in Hst. simpl in Hst. subst s1. clear Hlo.
  unfold get_teacher_forced_logits in Hgtfl. unfold bind at 1 in Hgtfl.
  pose proof (get_outputs_state self Y_batch s) as Hs1.
  destruct (get_outputs self Y_batch s) as [[output_ids|e] s1];
    [|discriminate].
  simpl in Hs1. subst s1.
  assert (Hinf : forall side ids (f : list (list (list F)) ->
                                      list (list (list F))) inputs s2,
             get_inputs self X_batch side s = (Ok inputs, s2) ->
             (logits0 <- model_inference self inputs ids ;; ret (f logits0)) s2
             = (Ok logits, s') ->
             tokenizer_padding_side s' = "right"%string
             /\ exists call, forward_calls s' = forward_calls s ++ [call]).
  { intros side ids f inputs s2 Hin Hrun. unfold bind, ret in Hrun.
    pose proof (model_inference_keeps_padding_side inputs ids s2) as Hpad.
    destruct (model_inference self inputs ids s2) as [[logits0|e] s3]
      eqn:Hmi; [|discriminate].
    injection Hrun as _ <-. simpl in Hpad.
    apply get_inputs_ok_state in Hin. subst s2.
    destruct (model_inference_ok_called _ _ _ _ Hmi)
      as (_ & call & _ & -> & _).
    split; [exact Hpad|]. exists call. reflexivity. }
  destruct (is_encoder_decoder (config self)).
  - unfold bind at 1 in Hgtfl.
    destruct (get_inputs self X_batch "right" s) as [[inputs|e] s2] eqn:Hin;
      [|discriminate].
    unfold bind at 1 in Hgtfl. unfold lift at 1 in Hgtfl.
    destruct (resolve_decoder_start_token_id (config self)); [|discriminate].
    unfold bind at 1 in Hgtfl. unfold lift at 1 in Hgtfl.
    destruct (prepend_start _ output_ids); [|discriminate].
    eapply Hinf; eassumption.
  - unfold bind at 1 in Hgtfl.
    destruct (get_inputs self X_batch "left" s) as [[inputs|e] s2] eqn:Hin;
      [|discriminate].
    eapply Hinf; eassumption.
Qed.

End DriverState.

Section DriverEdges.

Variables (Input F : Type).
Context {float64 : Float64 F}.
Variable self : TeacherForcing Input F.
Variables (X : list Input) (Y : ndarray).

Lemma call_loop_keeps_output :
  forall fuel start acc s r s',
    call_loop self fuel X Y start acc s = Some (r, s') ->
    self_output s' = self_output s.
Proof.
  induction fuel as [|fuel IH]; intros start acc s r s'; simpl;
    destruct (start <? Z.of_nat (length X));
    try discriminate; try (intros E; injection E as _ <-; reflexivity).
  pose proof (keeps_batch_logodds self
                (Py.slice (Some start) (Some (start + batch_size self)) X)
                (rows (Some start) (Some (start + batch_size self)) Y) s)
    as K.
  destruct (batch_logodds self _ _ s) as [[logodds|e] s1]; simpl in K.
  - destruct acc as [o|].
    + destruct (Np.concatenate o logodds).
      * intros H. apply IH in H. congruence.
      * intros E; injection E as _ <-. exact K.
    + intros H. apply IH in H. congruence.
  - intros E; injection E as _ <-. exact K.
Qed.

(** X12.  Whatever [__call__] does afterwards, returning or raising, it
    leaves the first row of [Y] in the cache: the target every later
    [get_logodds] reads is [Y[:1]]. *)
Theorem call_caches_first_row fuel s0 r s' :
  __call__ self fuel X Y s0 = Some (r, s') ->
  self_output s' = Some (rows None (Some 1) Y).
Proof.
  unfold __call__.
  destruct (cache_holds_target self (rows None (Some 1) Y) s0)
    as (o & Ho & Eo).
  apply array_equal_spec in Eo. subst o.
  destruct (update_output_names self _ s0) as [[[]|e] s1]; simpl in Ho.
  - intros H. apply call_loop_keeps_output in H. congruence.
  - intros E; injection E as _ <-. exact Ho.
Qed.

(** The loop returns a value either at once, handing back what it was
    given, or after a batch was scored. *)
Lemma call_loop_returns :
  forall fuel start acc s v s',
    call_loop self fuel X Y start acc s = Some (Ok v, s') ->
    (v = acc /\ s' = s)
    \/ (v <> None /\ tokenizer_padding_side s' = "right"%string).
Proof.
  induction fuel as [|fuel IH]; intros start acc s v s'; simpl;
    destruct (start <? Z.of_nat (length X));
    try discriminate; try (intros E; injection E as <- <-; auto).
  destruct (batch_logodds self _ _ s) as [[logodds|e] s1] eqn:Hb;
    [|discriminate].
  apply batch_logodds_ok in Hb. destruct Hb as [Hpad _].
  assert (Hnext : forall o,
             call_loop self fuel X Y (start + batch_size self) (Some o) s1
             = Some (Ok v, s') ->
             v <> None /\ tokenizer_padding_side s' = "right"%string).
  { intros o H. apply IH in H. destruct H as [[-> ->]|H]; [|exact H].
    split; [discriminate|exact Hpad]. }
  destruct acc as [o|].
  - destruct (Np.concatenate o logodds); [|discriminate].
    intros H. right. eapply Hnext; eassumption.
  - intros H. right. eapply Hnext; eassumption.
Qed.

(** X13.  When [__call__] returns an array, the shared tokenizer pads on
    the right again, whichever side the model needed. *)
Theorem call_leaves_right_padding fuel s0 out s' :
  __call__ self fuel X Y s0 = Some (Ok (Some out), s') ->
  tokenizer_padding_side s' = "right"%string.
Proof.
  unfold __call__.
  destruct (update_output_names self _ s0) as [[[]|e] s1]; [|discriminate].
  intros H. apply call_loop_returns in H.
  destruct H as [[H _]|[_ H]]; [discriminate|exact H].
Qed.

Lemma call_loop_stuck :
  batch_size self <= 0 -> X <> [] ->
  forall fuel start acc s v s',
    start <= 0 ->
    call_loop self fuel X Y start acc s <> Some (Ok v, s').
Proof.
  intros Hbs HX.
  assert (Hlen : 0 < Z.of_nat (length X))
    by (destruct X; [congruence|simpl; lia]).
  induction fuel as [|fuel IH]; intros start acc s v s' Hstart; simpl;
    replace (start <? Z.of_nat (length X)) with true
      by (symmetry; apply Z.ltb_lt; lia);
    [discriminate|].
  destruct (batch_logodds self _ _ s) as [[logodds|e] s1]; [|discriminate].
  destruct acc as [o|].
  - destruct (Np.concatenate o logodds); [|discriminate].
    apply IH. lia.
  - apply IH. lia.
Qed.

(** X14.  With a batch size of zero or less the start index never gets
    past the end of a non-empty [X]: however long it runs, [__call__]
    does not return a value; it can only raise or go on. *)
Theorem call_nonpositive_batch_size fuel s0 v s' :
  batch_size self <= 0 ->
  X <> [] ->
  __call__ self fuel X Y s0 <> Some (Ok v, s').
Proof.
  intros Hbs HX. unfold __call__.
  destruct (update_output_names self _ s0) as [[[]|e] s1]; [|discriminate].
  apply call_loop_stuck; auto. lia.
Qed.

End DriverEdges.

Section EmptyInput.

Variables (Input F : Type).
Context {float64 : Float64 F}.
Variable self : TeacherForcing Input F.

Lemma update_output_names_frame T s :
  let s' := snd (update_output_names self T s) in
  tokenizer_padding_side s' = tokenizer_padding_side s
  /\ forward_calls s' = forward_calls s
  /\ stdout s' = stdout s.
Proof.
  destruct (match self_output s with
            | None => true
            | Some o => negb (array_equal o T)
            end) eqn:Hmiss.
  - rewrite (update_output_names_miss _ _ _ Hmiss).
    pose proof (get_output_names_state self T (with_output T s)) as E.
    destruct (get_output_names self T _) as [[names|e] s1];
      simpl in E; subst s1; simpl; auto.
  - destruct (self_output s) as [o|] eqn:Ho; [|discriminate].
    apply negb_false_iff in Hmiss.
    rewrite (update_output_names_hit _ _ _ Ho Hmiss). simpl. auto.
Qed.

(** X15.  On an empty [X] the loop body never runs, whatever the fuel and
    the batch size: once the cache is updated from [Y[:1]], [__call__]
    returns Python's [None], never an array, without tokenizing anything
    and without a forward pass; if the update raises, so does the call. *)
Theorem call_empty_input fuel Y s0 :
  let upd := update_output_names self (rows None (Some 1) Y) s0 in
  __call__ self fuel [] Y s0
  = Some (match fst upd with
          | Ok _ => Ok None
          | Raise e => Raise e
          end, snd upd)
  /\ forward_calls (snd upd) = forward_calls s0
  /\ tokenizer_padding_side (snd upd) = tokenizer_padding_side s0.
Proof.
  intros upd. split.
  - unfold __call__. subst upd.
    destruct (update_output_names self _ s0) as [[[]|e] s1];
      [|reflexivity].
    destruct fuel; reflexivity.
  - subst upd.
    destruct (update_output_names_frame (rows None (Some 1) Y) s0)
      as (H1 & H2 & _). auto.
Qed.

End EmptyInput.

Lemma concat_width {A} (w : Z) (outs : list (list (list A))) :
  outs <> [] ->
  Forall (fun o => o <> [] /\ Np.shape1 o = w) outs ->
  concat outs <> [] /\ Np.shape1 (concat outs) = w.
Proof.
  intros Hne Houts. destruct outs as [|o outs]; [congruence|].
  apply Forall_cons_iff in Houts. destruct Houts as [[Ho Hw] _].
  simpl. split.
  - destruct o; [congruence|discriminate].
  - rewrite shape1_app by assumption. exact Hw.
Qed.

Section DriverErrors.

Variables (Input F : Type).
Context {float64 : Float64 F}.
Variable self : TeacherForcing Input F.
Variables (X : list Input) (Y : ndarray).

Variable n : nat.
Hypothesis batch_size_n : batch_size self = Z.of_nat n.
Hypothesis batch_size_pos : (1 <= n)%nat.

(** The loop over the first [k] batches from batch [i], all of them
    scored, is the loop resumed after them. *)
Lemma call_loop_prefix (w : Z) :
  forall k i acc s outs fuel,
    (i + k <= batch_count n (length X))%nat ->
    (forall o, acc = Some o -> o <> [] /\ Np.shape1 o = w) ->
    fst (run_batches self (batches_from n X Y i k) s) = map Ok outs ->
    Forall (fun o => o <> [] /\ Np.shape1 o = w) outs ->
    call_loop self (k + fuel) X Y (Z.of_nat (i * n)) acc s
    = call_loop self fuel X Y (Z.of_nat ((i + k) * n)) (join acc outs)
        (snd (run_batches self (batches_from n X Y i k) s)).
Proof.
  pose proof batch_size_pos as Hn.
  induction k as [|k IH]; intros i acc s outs fuel Hik Hacc Hrun Houts.
  - destruct outs; [|discriminate]. rewrite Nat.add_0_r. simpl.
    destruct acc; simpl; rewrite ?app_nil_r; reflexivity.
  - assert (Hmore : (Z.of_nat (i * n) <? Z.of_nat (length X)) = true).
    { apply Z.ltb_lt. apply inj_lt. apply batch_count_lt; [assumption|].
      lia. }
    simpl call_loop. rewrite Hmore.
    rewrite batch_size_n, slice_batch, rows_batch by assumption.
    unfold batches_from in *. simpl in Hrun |- *.
    destruct (batch_logodds self (batch_of n i X) (nd_batch_of n i Y) s)
      as [r s'] eqn:Hb.
    destruct outs as [|o1 outs]; [discriminate|].
    simpl in Hrun. injection Hrun as -> Hrest.
    apply Forall_cons_iff in Houts. destruct Houts as [[Ho1 Hw1] Houts'].
    replace (Z.of_nat (i * n) + Z.of_nat n) with (Z.of_nat (S i * n))
      by lia.
    replace (i + S k)%nat with (S i + k)%nat by lia.
    destruct acc as [o|].
    + destruct (Hacc o eq_refl) as [Ho Hw].
      unfold Np.concatenate. rewrite Hw, Hw1, Z.eqb_refl.
      rewrite (IH (S i) (Some (o ++ o1)) s' outs fuel); try lia; auto.
      * simpl. rewrite app_assoc. reflexivity.
      * intros o' E. injection E as <-. split.
        -- destruct o; [congruence|discriminate].
        -- rewrite shape1_app by assumption. assumption.
    + rewrite (IH (S i) (Some o1) s' outs fuel); try lia; auto.
      intros o' E. injection E as <-. auto.
Qed.

Variables (s0 s1 : state).
Hypothesis update_ok :
  update_output_names self (rows None (Some 1) Y) s0 = (Ok tt, s1).

(** X16.  The first batch that raises ends the call: [__call__] raises
    that error from the state the batch left, the rows of the batches
    scored before it are dropped and no later batch is looked at. *)
Theorem call_stops_at_failing_batch (w : Z) k outs e s2 fuel :
  (k < batch_count n (length X))%nat ->
  fst (run_batches self (batches_from n X Y 0 k) s1) = map Ok outs ->
  Forall (fun o => o <> [] /\ Np.shape1 o = w) outs ->
  batch_logodds self (batch_of n k X) (nd_batch_of n k Y)
    (snd (run_batches self (batches_from n X Y 0 k) s1)) = (Raise e, s2) ->
  (k < fuel)%nat ->
  __call__ self fuel X Y s0 = Some (Raise e, s2).
Proof.
  intros Hk Hrun Houts Hfail Hfuel.
  unfold __call__. rewrite update_ok.
  replace fuel with (k + S (fuel - S k))%nat by lia.
  change 0 with (Z.of_nat (0 * n)).
  rewrite call_loop_prefix with (w := w) (outs := outs);
    auto; [|lia|discriminate].
  simpl (0 + k)%nat. simpl call_loop.
  replace (Z.of_nat (k * n) <? Z.of_nat (length X)) with true
    by (symmetry; apply Z.ltb_lt, inj_lt, batch_count_lt; assumption).
  rewrite batch_size_n, slice_batch, rows_batch by assumption.
  rewrite Hfail. reflexivity.
Qed.

(** X17.  The rows of all batches must have one width.  When a batch
    after the first is scored with rows of another width than those
    before it, [np.concatenate] refuses them and [__call__] raises a
    ValueError; no ragged array is returned. *)
Theorem call_rejects_ragged_batches (w : Z) k outs o s2 fuel :
  (1 <= k < batch_count n (length X))%nat ->
  fst (run_batches self (batches_from n X Y 0 k) s1) = map Ok outs ->
  Forall (fun o => o <> [] /\ Np.shape1 o = w) outs ->
  batch_logodds self (batch_of n k X) (nd_batch_of n k Y)
    (snd (run_batches self (batches_from n X Y 0 k) s1)) = (Ok o, s2) ->
  Np.shape1 o <> w ->
  (k < fuel)%nat ->
  exists msg, __call__ self fuel X Y s0 = Some (Raise (ValueError msg), s2).
Proof.
  intros Hk Hrun Houts Hbatch Hwidth Hfuel.
  unfold __call__. rewrite update_ok.
  replace fuel with (k + S (fuel - S k))%nat by lia.
  change 0 with (Z.of_nat (0 * n)).
  rewrite call_loop_prefix with (w := w) (outs := outs);
    auto; [|lia|discriminate].
  simpl (0 + k)%nat. simpl call_loop.
  replace (Z.of_nat (k * n) <? Z.of_nat (length X)) with true
    by (symmetry; apply Z.ltb_lt, inj_lt, batch_count_lt; lia).
  rewrite batch_size_n, slice_batch, rows_batch by assumption.
  rewrite Hbatch.
  assert (Hne : outs <> []).
  { intros ->. apply (f_equal (@length _)) in Hrun.
    rewrite length_map in Hrun.
    assert (Hlen : forall bs s,
               length (fst (run_batches self bs s)) = length bs).
    { induction bs as [|b bs IH]; intros s; simpl; [reflexivity|].
      rewrite IH. reflexivity. }
    rewrite Hlen in Hrun. unfold batches_from in Hrun.
    rewrite length_map, length_seq in Hrun. simpl in Hrun. lia. }
  destruct (concat_width Hne Houts) as [_ Hcw].
  unfold join. destruct outs as [|o1 outs']; [congruence|].
  unfold Np.concatenate. rewrite Hcw.
  replace (w =? Np.shape1 o) with false
    by (symmetry; apply Z.eqb_neq; congruence).
  eexists. reflexivity.
Qed.

Lemma run_batches_forward_calls :
  forall bs s outs,
    fst (run_batches self bs s) = map Ok outs ->
    exists calls,
      forward_calls (snd (run_batches self bs s)) = forward_calls s ++ calls
      /\ length calls = length bs.
Proof.
  induction bs as [|b bs IH]; intros s outs Hrun; simpl in *.
  - exists []. rewrite app_nil_r. auto.
  - destruct outs as [|o outs]; [discriminate|]. simpl in Hrun.
    injection Hrun as Hb Hrest.
    destruct (batch_logodds self (fst b) (snd b) s) as [r s'] eqn:E.
    simpl in Hb, Hrest |- *. subst r.
    apply batch_logodds_ok in E. destruct E as [_ [call Hcall]].
    destruct (IH s' outs Hrest) as (calls & Hcalls & Hlen).
    exists (call :: calls). split; [|simpl; congruence].
    rewrite Hcalls, Hcall, <- app_assoc. reflexivity.
Qed.

(** X18.  A call in which every batch is scored makes exactly one forward
    pass of the similarity model per batch, that is
    ceil(len(X) / batch_size) of them, and none for the cache update. *)
Theorem call_one_forward_pass_per_batch (w : Z) outs fuel :
  fst (run_batches self (batches n X Y) s1) = map Ok outs ->
  Forall (fun o => o <> [] /\ Np.shape1 o = w) outs ->
  (length X <= fuel)%nat ->
  exists r s' calls,
    __call__ self fuel X Y s0 = Some (Ok r, s')
    /\ forward_calls s' = forward_calls s0 ++ calls
    /\ length calls = batch_count n (length X).
Proof.
  intros Hrun Houts Hfuel.
  unfold __call__. rewrite update_ok.
  change 0 with (Z.of_nat (0 * n)).
  rewrite call_loop_batches
    with (n := n) (w := w) (k := batch_count n (length X)) (i := 0%nat)
         (outs := outs); auto.
  - destruct (run_batches_forward_calls _ _ _ Hrun) as (calls & Hc & Hl).
    exists (join None outs). eexists. exists calls.
    split; [reflexivity|]. split.
    + fold (batches n X Y). rewrite Hc.
      pose proof (update_output_names_frame self (rows None (Some 1) Y) s0)
        as (_ & Hf & _).
      rewrite update_ok in Hf. simpl in Hf. rewrite Hf. reflexivity.
    + rewrite Hl. unfold batches, batches_from.
      rewrite length_map, length_seq. reflexivity.
  - pose proof (batch_count_le (length X) batch_size_pos). lia.
  - discriminate.
Qed.

End DriverErrors.

(** ** The constructor *)

Section InitFacts.

Variable Dev : Type.
Variable TextGeneration : option Init.Tokenizer -> option Dev -> result unit.

Lemma set_pad_token_defined t tok :
  Init.set_pad_token t = Some tok ->
  Init.pad_token tok = None -> Init.eos_token tok = None.
Proof.
  unfold Init.set_pad_token. destruct t as [t0|]; [|discriminate].
  destruct (Init.pad_token t0) eqn:Hpad; intros E; injection E as <-;
    simpl; congruence.
Qed.

Ltac init_cases H :=
  unfold Init.__init__ in H; cbv zeta in H;
  repeat match type of H with
    | context [match ?x with _ => _ end] => destruct x eqn:?
    end;
  try discriminate H; injection H as <-; simpl in *.

(** X19.  An object built around a transformers model is never model
    agnostic and always has a backend: it scores with the explained model
    itself and with its tokenizer, under pytorch exactly when the model is
    a [PreTrainedModel], under tensorflow otherwise. *)
Theorem init_transformer_object model tok sim_model sim_tok bs dev a :
  Init.__init__ TextGeneration model tok sim_model sim_tok bs dev
  = Init.Constructed a ->
  Init.is_PreTrainedModel model || Init.is_TFPreTrainedModel model = true ->
  Init.model_agnostic a = false
  /\ Init.similarity_model a = Some model
  /\ Init.similarity_tokenizer a = Init.tokenizer a
  /\ Init.similarity_model_type a
     = Some (if Init.is_PreTrainedModel model then pt else tf).
Proof.
  intros H Htr. unfold Init.__init__ in H. cbv zeta in H.
  rewrite Htr in H.
  destruct (TextGeneration (Init.set_pad_token tok) dev); [|discriminate].
  destruct (Init.is_PreTrainedModel model) eqn:Hpt.
  - destruct dev as [d|].
    + destruct (Init.device_eq model d || Init.device_str_eq model d);
        [|discriminate].
      injection H as <-. simpl. auto.
    + injection H as <-. simpl. auto.
  - simpl in Htr. rewrite Htr in H. injection H as <-. simpl. auto.
Qed.

(** X20.  After construction every tokenizer the object holds has a pad
    token unless it has no end-of-sequence token either. *)
Theorem init_pad_token_defined model tok sim_model sim_tok bs dev a t :
  Init.__init__ TextGeneration model tok sim_model sim_tok bs dev
  = Init.Constructed a ->
  Init.tokenizer a = Some t \/ Init.similarity_tokenizer a = Some t ->
  Init.pad_token t = None -> Init.eos_token t = None.
Proof.
  intros Hinit Htok.
  assert (H : exists t0, Init.set_pad_token t0 = Some t);
    [|destruct H as [t0 H]; eapply set_pad_token_defined; exact H].
  init_cases Hinit; destruct Htok as [H|H]; eauto.
Qed.

(** X21.  The device is checked for a pytorch similarity model only, and
    only when a device was passed: the constructor fails its assertion
    exactly when the text generation wrapper was built, the similarity
    model is a [PreTrainedModel], a device was given, and the device of
    the model is neither equal to it nor named by it.  A tensorflow model
    is accepted with any device. *)
Theorem init_device_assertion model tok sim_model sim_tok bs dev_arg :
  let transformer :=
    Init.is_PreTrainedModel model || Init.is_TFPreTrainedModel model in
  let scored := if transformer then Some model else sim_model in
  (exists msg,
      Init.__init__ TextGeneration model tok sim_model sim_tok bs dev_arg
      = Init.AssertionError msg)
  <->
  (is_ok (TextGeneration
            (if transformer then Init.set_pad_token tok else None)
            dev_arg) = true
   /\ exists m dev,
       scored = Some m /\ dev_arg = Some dev
       /\ Init.is_PreTrainedModel m = true
       /\ Init.device_eq m dev = false
       /\ Init.device_str_eq m dev = false).
Proof.
  intros transformer scored. subst transformer scored.
  unfold Init.__init__. cbv zeta.
  set (tr := Init.is_PreTrainedModel model || Init.is_TFPreTrainedModel model).
  set (tg := TextGeneration (if tr then Init.set_pad_token tok else None)
                            dev_arg).
  replace (if tr then TextGeneration (Init.set_pad_token tok) dev_arg
           else TextGeneration None dev_arg) with tg
    by (subst tg; destruct tr; reflexivity).
  destruct tg as [[]|e]; simpl;
    [|split; [intros [msg E]; discriminate|intros [E _]; discriminate]].
  destruct (if tr then Some model else sim_model) as [m|];
    [|split; [intros [msg E]; discriminate
             |intros (_ & m' & d & E & _); discriminate]].
  destruct (Init.is_PreTrainedModel m) eqn:Hpt.
  - destruct dev_arg as [dev|].
    + destruct (Init.device_eq m dev) eqn:H1;
        destruct (Init.device_str_eq m dev) eqn:H2; simpl; split;
        try (intros [msg E]; discriminate);
        try (intros (_ & m' & d & E1 & E2 & _ & E3 & E4);
             injection E1 as <-; injection E2 as <-; congruence).
      * intros _. split; [reflexivity|]. exists m, dev. auto.
      * intros _. eexists. reflexivity.
    + split; [intros [msg E]; discriminate|].
      intros (_ & m' & d & _ & E & _). discriminate.
  - split.
    + intros [msg E]. destruct (Init.is_TFPreTrainedModel m); discriminate.
    + intros (_ & m' & d & E1 & _ & E3 & _). injection E1 as <-. congruence.
Qed.

End InitFacts.

(** ** The further properties on the small instances *)

Lemma get_inputs_inner_model_raises_witness :
  let self :=
    Toy2.custom Toy2.failing_inner_model true Toy.tokenizer 0 0
      (Toy.make (Toy.cfg false Missing) (Some pt) None 2) in
  get_inputs self ["ab"]%string "left" Toy.fresh
  = (Raise (OtherError "model failed"), Toy.fresh).
Proof.
  intros self.
  apply (@get_inputs_inner_model_raises _ _ self); reflexivity.
Defined.

Lemma model_inference_returns_forward_logits_witness :
  let self := Toy.make (Toy.cfg true (Val 3)) (Some tf)
                (Some "GPU:0"%string) 2 in
  let inputs := {| input_ids := [[1; 2]]; attention_mask := [[1; 1]];
                   position_ids := None |} in
  exists call,
    similarity_model self call = Ok [[Toy.scores 0; Toy.scores 1]]
    /\ snd (model_inference self inputs [[3; 1]] Toy.fresh)
       = called call Toy.fresh.
Proof.
  intros self inputs.
  destruct (@model_inference_returns_forward_logits _ _ self inputs [[3; 1]]
              Toy.fresh [[Toy.scores 0; Toy.scores 1]]
              (snd (model_inference self inputs [[3; 1]] Toy.fresh))
              eq_refl)
    as (_ & call & Hm & Hs & _).
  exists call. split; [exact Hm | exact Hs].
Defined.


Lemma model_inference_row_mismatch_witness :
  let self := Toy.make (Toy.cfg false Missing) (Some pt) None 2 in
  let inputs := {| input_ids := [[1; 2]; [0; 2]];
                   attention_mask := [[1; 1]; [0; 1]];
                   position_ids := None |} in
  is_ok (fst (model_inference self inputs [[1; 2]] Toy.fresh)) = false
  /\ snd (model_inference self inputs [[1; 2]] Toy.fresh) = Toy.fresh.
Proof.
  intros self inputs.
  apply (@model_inference_row_mismatch _ _ self inputs [[1; 2]] Toy.fresh).
  - reflexivity.
  - left. simpl. lia.
Defined.

Lemma get_outputs_strips_special_tokens_witness :
  let self :=
    Toy2.custom (fun X => Ok X) false Toy2.special_tokenizer 1 1
      (Toy.make (Toy.cfg false Missing) (Some pt) None 2) in
  get_outputs self (StrArr ["ab"; "b"]%string) Toy.fresh
  = (Ok [[1; 2]; [2; 0]], Toy.fresh).
Proof.
  intros self.
  apply (@get_outputs_strips_special_tokens _ _ self ["ab"; "b"]%string
           Toy.fresh
           {| input_ids := [[3; 1; 2; 3]; [3; 2; 0; 3]];
              attention_mask := [[1; 1; 1; 1]; [1; 1; 0; 1]];
              position_ids := None |}).
  - simpl. lia.
  - simpl. lia.
  - reflexivity.
  - discriminate.
Defined.

Lemma output_names_match_columns_witness :
  let self := Toy.make (Toy.cfg false Missing) (Some pt) None 2 in
  let s' := snd (update_output_names self (StrArr ["ab"]%string) Toy.fresh) in
  exists names ids,
    self_output_names s' = Some names
    /\ fst (logodds_output_ids self s') = Ok ids
    /\ length names = length ids.
Proof.
  intros self s'.
  apply (@output_names_match_columns _ _ self (StrArr ["ab"]%string)
           Toy.fresh s').
  - intros o H. discriminate.
  - reflexivity.
Defined.

Lemma failed_update_is_not_retried_witness :
  let self := Toy.make (Toy.cfg false Missing) (Some pt) None 2 in
  let s' := snd (update_output_names self (IdArr []) Toy.fresh) in
  self_output s' = Some (IdArr [])
  /\ self_output_names s' = None
  /\ update_output_names self (IdArr []) s' = (Ok tt, s').
Proof.
  intros self s'.
  apply (@failed_update_is_not_retried _ _ self (IdArr []) Toy.fresh
           (IndexError "index 0 is out of bounds for axis 0")).
  - intros o H. discriminate.
  - reflexivity.
Defined.

Lemma get_logodds_single_target_broadcast_witness :
  let self := Toy.make (Toy.cfg false Missing) (Some pt) None 2 in
  let s := with_output (IdArr [[2]]) Toy.fresh in
  get_logodds self [[Toy.scores 0; Toy.scores 1; Toy.scores 2]] s
  = (Ok [[logodds_at (Toy.scores 0) 2; logodds_at (Toy.scores 1) 2;
          logodds_at (Toy.scores 2) 2]], s).
Proof.
  intros self s.
  apply (@get_logodds_single_target_broadcast _ _ _ self 1 3 4
           [[Toy.scores 0; Toy.scores 1; Toy.scores 2]] 2 s).
  - reflexivity.
  - split; [reflexivity|]. repeat constructor.
  - lia.
  - lia.
  - lia.
Defined.

Lemma get_logodds_id_out_of_vocabulary_witness :
  let self := Toy.make (Toy.cfg false Missing) (Some pt) None 2 in
  let s := with_output (IdArr [[2; 4]]) Toy.fresh in
  get_logodds self [[Toy.scores 0; Toy.scores 1]] s
  = (Raise (IndexError "index out of bounds or shape mismatch"), s).
Proof.
  intros self s.
  apply (@get_logodds_id_out_of_vocabulary _ _ _ self 1 2 4
           [[Toy.scores 0; Toy.scores 1]] [2; 4] s 1 4).
  - reflexivity.
  - split; [reflexivity|]. repeat constructor.
  - lia.
  - lia.
  - reflexivity.
  - reflexivity.
  - right. simpl. lia.
Defined.

Lemma call_caches_first_row_witness :
  let self := Toy.make (Toy.cfg false Missing) (Some pt) None 2 in
  let X := ["ab"; "b"; "abc"]%string in
  let Y := IdArr [[1; 2]; [1; 2]; [1; 2]] in
  exists r s',
    __call__ self 3 X Y Toy.fresh = Some (r, s')
    /\ self_output s' = Some (IdArr [[1; 2]]).
Proof.
  intros self X Y.
  destruct (__call__ self 3 X Y Toy.fresh) as [[r s']|] eqn:E.
  - exists r, s'. split; [reflexivity|].
    exact (@call_caches_first_row _ _ _ self X Y 3 Toy.fresh r s' E).
  - exfalso. vm_compute in E. discriminate E.
Defined.

Lemma call_leaves_right_padding_witness :
  let self := Toy.make (Toy.cfg false Missing) (Some pt) None 2 in
  let X := ["ab"; "b"; "abc"]%string in
  let Y := IdArr [[1; 2]; [1; 2]; [1; 2]] in
  exists out s',
    __call__ self 3 X Y Toy.fresh = Some (Ok (Some out), s')
    /\ tokenizer_padding_side s' = "right"%string.
Proof.
  intros self X Y.
  destruct (__call__ self 3 X Y Toy.fresh) as [[[[out|]|e] s']|] eqn:E;
    try (exfalso; vm_compute in E; discriminate E).
  exists out, s'. split; [reflexivity|].
  exact (@call_leaves_right_padding _ _ _ self X Y 3 Toy.fresh out s' E).
Defined.

Lemma call_nonpositive_batch_size_witness :
  let self := Toy.make (Toy.cfg false Missing) (Some pt) None 0 in
  __call__ self 5 ["ab"]%string (IdArr [[1; 2]]) Toy.fresh
  <> Some (Ok None, Toy.fresh).
Proof.
  intros self.
  apply (@call_nonpositive_batch_size _ _ _ self ["ab"]%string
           (IdArr [[1; 2]]) 5 Toy.fresh None Toy.fresh).
  - simpl. lia.
  - discriminate.
Defined.

Lemma call_stops_at_failing_batch_witness :
  let self :=
    Toy2.custom (fun X => Ok X) false Toy2.picky_tokenizer 0 0
      (Toy.make (Toy.cfg false Missing) (Some pt) None 2) in
  let X := ["ab"; "b"; ""]%string in
  let Y := IdArr [[1; 2]; [1; 2]; [1; 2]] in
  exists s2,
    __call__ self 3 X Y Toy.fresh
    = Some (Raise (ValueError "empty sentence"), s2).
Proof.
  intros self X Y.
  pose (s1 := snd (update_output_names self (rows None (Some 1) Y) Toy.fresh)).
  pose (outs := map (value_or [])
                    (fst (run_batches self (batches_from 2 X Y 0 1) s1))).
  eexists.
  eapply (@call_stops_at_failing_batch _ _ _ self X Y 2%nat eq_refl
            ltac:(lia) Toy.fresh s1 eq_refl 2 1%nat outs).
  - vm_compute. lia.
  - vm_compute. reflexivity.
  - vm_compute. repeat first [discriminate | constructor].
  - reflexivity.
  - lia.
Defined.

Lemma call_rejects_ragged_batches_witness :
  let self := Toy.make (Toy.cfg false Missing) (Some pt) None 1 in
  let X := ["ab"; "b"]%string in
  let Y := StrArr ["a"; "ab"]%string in
  exists msg s2,
    __call__ self 2 X Y Toy.fresh = Some (Raise (ValueError msg), s2).
Proof.
  intros self X Y.
  pose (s1 := snd (update_output_names self (rows None (Some 1) Y) Toy.fresh)).
  pose (outs := map (value_or [])
                    (fst (run_batches self (batches_from 1 X Y 0 1) s1))).
  pose (last := batch_logodds self (batch_of 1 1 X) (nd_batch_of 1 1 Y)
                  (snd (run_batches self (batches_from 1 X Y 0 1) s1))).
  destruct (@call_rejects_ragged_batches _ _ _ self X Y 1%nat eq_refl
              ltac:(lia) Toy.fresh s1 eq_refl 1 1%nat outs
              (value_or [] (fst last)) (snd last) 2%nat)
    as [msg Hcall].
  - vm_compute. lia.
  - vm_compute. reflexivity.
  - vm_compute. repeat first [discriminate | constructor].
  - vm_compute. reflexivity.
  - vm_compute. discriminate.
  - lia.
  - exists msg. eexists. exact Hcall.
Defined.

Lemma call_one_forward_pass_per_batch_witness :
  let self := Toy.make (Toy.cfg false Missing) (Some pt) None 2 in
  let X := ["ab"; "b"; "abc"]%string in
  let Y := IdArr [[1; 2]; [1; 2]; [1; 2]] in
  exists r s' calls,
    __call__ self 3 X Y Toy.fresh = Some (Ok r, s')
    /\ forward_calls s' = forward_calls Toy.fresh ++ calls
    /\ length calls = 2%nat.
Proof.
  intros self X Y.
  pose (s1 := snd (update_output_names self (rows None (Some 1) Y) Toy.fresh)).
  pose (outs := map (value_or [])
                    (fst (run_batches self (batches 2 X Y) s1))).
  apply (@call_one_forward_pass_per_batch _ _ _ self X Y 2%nat eq_refl
           ltac:(lia) Toy.fresh s1 eq_refl 2 outs 3%nat).
  - vm_compute. reflexivity.
  - vm_compute. repeat first [discriminate | constructor].
  - simpl. lia.
Defined.

Lemma init_transformer_object_witness :
  exists a,
    Init.__init__ Toy2.text_generation Toy2.gpu_model
      (Some {| Init.pad_token := None; Init.eos_token := Some "</s>"%string |})
      None None 128 (Some "cuda:0"%string) = Init.Constructed a
    /\ Init.model_agnostic a = false
    /\ Init.similarity_model a = Some Toy2.gpu_model
    /\ Init.similarity_tokenizer a = Init.tokenizer a
    /\ Init.similarity_model_type a = Some pt.
Proof.
  eexists. split; [reflexivity|].
  eapply (@init_transformer_object _ Toy2.text_generation Toy2.gpu_model
            (Some {| Init.pad_token := None;
                     Init.eos_token := Some "</s>"%string |})
            None None 128 (Some "cuda:0"%string));
    reflexivity.
Defined.

Lemma init_pad_token_defined_witness :
  Init.eos_token {| Init.pad_token := None; Init.eos_token := None |} = None.
Proof.
  eapply (@init_pad_token_defined _ Toy2.text_generation Toy2.gpu_model
            (Some {| Init.pad_token := None; Init.eos_token := None |})
            None None 128 (Some "cuda:0"%string)).
  - reflexivity.
  - left. reflexivity.
  - reflexivity.
Defined.
